(** * brede.data.sbs2: the SBS2 inverse-modelling pipeline

    A shallow embedding of [SBS2Data.electrode_names], [forward_model],
    [spatial_coherence], [inverse_spatial_coherence] and [inverse_model]
    (src/brede/data/sbs2.py), followed by the properties of the
    specification that concern them.

    Conventions.
    - Python exceptions are values of [exn]; a method that may raise
      returns a [result].
    - Numbers are kept abstract ([Scalar]): no algebraic law of the
      arithmetic is used, so every statement holds for exact reals as well
      as for IEEE doubles.
    - [scipy.linalg.pinv] is an external routine; it is a variable of the
      section, constrained only by the shape of what it returns.
    - The data directory after [unpack] is a table from a hardware
      directory and a file name to the parsed content of that file. *)

From Stdlib Require Import String List Bool Arith Lia QArith.
Import ListNotations.
Local Open Scope string_scope.
Local Open Scope nat_scope.

(** ** Exceptions and results *)

(** [ValueError] is what the specification calls InvalidArgument;
    [DataUnavailable] stands for whatever [read_csv] raises when the file
    cannot be read; [ZeroDivisionError] is Python's float division by 0. *)
Inductive exn : Type :=
| ValueError (msg : string)
| ZeroDivisionError
| DataUnavailable.

Inductive result (A : Type) : Type :=
| Ok (a : A)
| Error (e : exn).
Arguments Ok {A} a.
Arguments Error {A} e.

Definition bind {A B : Type} (m : result A) (k : A -> result B) : result B :=
  match m with
  | Ok a => k a
  | Error e => Error e
  end.

Notation "x <- m ;; k" := (bind m (fun x => k))
  (at level 61, m at next level, right associativity).

Definition is_ok {A : Type} (m : result A) : bool :=
  match m with Ok _ => true | Error _ => false end.

(** InvalidArgument of the specification. *)
Definition InvalidArgument (e : exn) : Prop := exists msg, e = ValueError msg.

(** ** Scalars *)

Class Scalar (R : Type) : Type := {
  rzero : R;
  rone : R;
  million : R;
  radd : R -> R -> R;
  rmul : R -> R -> R;
  rdiv : R -> R -> R;
  is_zero : R -> bool;
  rpos : R -> bool;
  rpos_not_zero : forall x, rpos x = true -> is_zero x = false
}.

(** ** Axis labels of a pandas frame *)

Inductive label : Type :=
| Pos (i : nat)
| Name (s : string).

(** RangeIndex(n) *)
Definition RangeIndex (n : nat) : list label := map Pos (seq 0 n).

(** ** The hardware catalog *)

Definition SBS2_ELECTRODES_EMOTIV : list string :=
  ["P7"; "FC6"; "T7"; "P8"; "O2"; "O1"; "FC5";
   "F3"; "F4"; "T8"; "F7"; "F8"; "AF4"; "AF3"].

Definition SBS2_ELECTRODES_EMOCAP : list string :=
  ["TP10"; "Fz"; "P3"; "Cz"; "C4"; "TP9"; "Pz"; "P4";
   "F3"; "C3"; "O1"; "F4"; "Fpz"; "O2"].

Definition electrode_names (hardware : string) : result (list string) :=
  if (hardware =? "emotiv")%string then Ok SBS2_ELECTRODES_EMOTIV
  else if (hardware =? "emocap")%string then Ok SBS2_ELECTRODES_EMOCAP
  else Error (ValueError "Wrong argument to model").

Definition supported (hardware : string) : Prop :=
  hardware = "emotiv" \/ hardware = "emocap".

Definition valid_method (method : string) : Prop :=
  method = "minimumnorm" \/ method = "LORETA".

(** ** Dense arrays *)

Section Arrays.
Context {R : Type} `{Scalar R}.

(** A two-dimensional ndarray, as the list of its rows.  [read_csv]
    yields at least one row, so the column count is that of the first
    row. *)
Definition ndarray : Type := list (list R).

Definition nrows (a : ndarray) : nat := length a.

Definition ncols (a : ndarray) : nat :=
  match a with
  | [] => 0
  | row :: _ => length row
  end.

Definition shaped (r c : nat) (a : ndarray) : Prop :=
  length a = r /\ Forall (fun row => length row = c) a.

Definition is_shape (r c : nat) (a : ndarray) : bool :=
  (length a =? r) && forallb (fun row => length row =? c) a.

Definition entry (a : ndarray) (i j : nat) : R := nth j (nth i a []) rzero.

Definition column (j : nat) (a : ndarray) : list R :=
  map (fun row => nth j row rzero) a.

(** a.T *)
Definition transpose (a : ndarray) : ndarray :=
  map (fun j => column j a) (seq 0 (ncols a)).

Definition inner (u v : list R) : R :=
  fold_right radd rzero (map (fun p => rmul (fst p) (snd p)) (combine u v)).

Definition matmul (a b : ndarray) : ndarray :=
  map (fun row => map (fun j => inner row (column j b)) (seq 0 (ncols b))) a.

Fixpoint zip_with {A B C : Type} (f : A -> B -> C) (u : list A) (v : list B)
  : list C :=
  match u, v with
  | x :: u', y :: v' => f x y :: zip_with f u' v'
  | _, _ => []
  end.

Definition mplus (a b : ndarray) : ndarray := zip_with (zip_with radd) a b.

(** k * a, the scalar on the left *)
Definition scale (k : R) (a : ndarray) : ndarray := map (map (rmul k)) a.

(** a * k, the scalar on the right (the in-place [*=]) *)
Definition scale_r (a : ndarray) (k : R) : ndarray :=
  map (map (fun x => rmul x k)) a.

(** numpy.eye(n) *)
Definition eye (n : nat) : ndarray :=
  map (fun i => map (fun j => if i =? j then rone else rzero) (seq 0 n))
      (seq 0 n).

(** a.dot(b): numpy refuses operands whose inner dimensions differ. *)
Definition dot (a b : ndarray) : result ndarray :=
  if ncols a =? nrows b then Ok (matmul a b)
  else Error (ValueError "shapes not aligned").

(** a + b on arrays.  Both operands are (channels x channels) wherever
    the pipeline adds; unequal shapes are refused (no broadcasting). *)
Definition add (a b : ndarray) : result ndarray :=
  if (nrows a =? nrows b) && (ncols a =? ncols b) then Ok (mplus a b)
  else Error (ValueError "operands could not be broadcast together").

(** x / y on Python floats *)
Definition divide (x y : R) : result R :=
  if is_zero y then Error ZeroDivisionError else Ok (rdiv x y).

(** *** Labelled matrices *)

(** Modelled from the spec: brede.core.matrix.Matrix is not among the
    sources; it is the dense real matrix with labelled axes of the
    specification's data model (a pandas DataFrame): row labels, column
    labels and the values. *)
Record Matrix : Type := {
  index : list label;
  columns : list label;
  values : ndarray
}.

Definition shape (m : Matrix) : nat * nat :=
  (length (index m), length (columns m)).

(** Matrix(a) for an unlabelled table: default labels on both axes. *)
Definition mk_Matrix (a : ndarray) : Matrix :=
  {| index := RangeIndex (nrows a);
     columns := RangeIndex (ncols a);
     values := a |}.

(** matrix.index = labels; pandas refuses a label list of another
    length. *)
Definition set_index (m : Matrix) (labels : list label) : result Matrix :=
  if length labels =? length (index m)
  then Ok {| index := labels; columns := columns m; values := values m |}
  else Error (ValueError "Length mismatch").

(** matrix *= k *)
Definition imul (m : Matrix) (k : R) : Matrix :=
  {| index := index m; columns := columns m;
     values := scale_r (values m) k |}.

(** matrix.T *)
Definition T (m : Matrix) : Matrix :=
  {| index := columns m; columns := index m;
     values := transpose (values m) |}.

(** *** The data directory *)

(** [fs hardware file] is the table parsed from
    sbs2_data/hardware/<hardware>/<file>, or [None] when it cannot be
    read. *)
Definition assets : Type := string -> string -> option ndarray.

Definition read_csv (fs : assets) (hardware file : string)
  : result ndarray :=
  match fs hardware file with
  | Some a => Ok a
  | None => Error DataUnavailable
  end.

Definition forward_file : string := "forwardmodel_spheres_reduced.txt".
Definition coherence_file : string := "spatialCoherenceSmooth0-2_reduced.txt".
Definition inverse_coherence_file : string :=
  "spatialCoherenceSmooth0-2_reduced_inverse.txt".

(** *** SBS2Data *)

Definition forward_model (fs : assets) (hardware : string) : result Matrix :=
  raw <- read_csv fs hardware forward_file ;;
  let matrix := mk_Matrix raw in
  names <- electrode_names hardware ;;
  matrix <- set_index matrix (map Name names) ;;
  let matrix := imul matrix million in
  Ok (T matrix).

Definition spatial_coherence (fs : assets) (hardware : string)
  : result Matrix :=
  raw <- read_csv fs hardware coherence_file ;;
  Ok (mk_Matrix raw).

Definition inverse_spatial_coherence (fs : assets) (hardware : string)
  : result Matrix :=
  raw <- read_csv fs hardware inverse_coherence_file ;;
  Ok (mk_Matrix raw).

Variable pinv : ndarray -> ndarray.

Definition inverse_model (fs : assets) (hardware method : string)
    (inv_alpha inv_beta : R) : result Matrix :=
  F <- forward_model fs hardware ;;
  let forward := values F in
  let identity := eye (ncols forward) in
  inverse <-
    (if (method =? "minimumnorm")%string then
       gram <- dot (transpose forward) forward ;;
       ratio <- divide inv_beta inv_alpha ;;
       regularized <- add gram (scale ratio identity) ;;
       dot (pinv regularized) (transpose forward)
     else if (method =? "LORETA")%string then
       L <- spatial_coherence fs hardware ;;
       let coherence := values L in
       forward_and_coherence <- dot coherence forward ;;
       gram <- dot (transpose forward) forward_and_coherence ;;
       sigma_inv <- add (scale inv_alpha gram) (scale inv_beta identity) ;;
       product <- dot (pinv sigma_inv) (transpose forward_and_coherence) ;;
       Ok (scale inv_alpha product)
     else Error (ValueError "Wrong method")) ;;
  names <- electrode_names hardware ;;
  set_index (mk_Matrix inverse) (map Name names).

(** *** The formulas of the specification *)

(** inverse = pinv(F^T . F + (beta/alpha) . I) . F^T *)
Definition minimumnorm_spec (alpha beta : R) (F : ndarray) : ndarray :=
  let I := eye (ncols F) in
  matmul (pinv (mplus (matmul (transpose F) F) (scale (rdiv beta alpha) I)))
         (transpose F).

(** FC = L . F; Sigma_inv = alpha . (F^T . FC) + beta . I;
    inverse = alpha . pinv(Sigma_inv) . FC^T *)
Definition loreta_spec (alpha beta : R) (F L : ndarray) : ndarray :=
  let I := eye (ncols F) in
  let FC := matmul L F in
  let Sigma_inv := mplus (scale alpha (matmul (transpose F) FC))
                         (scale beta I) in
  scale alpha (matmul (pinv Sigma_inv) (transpose FC)).

(** raw (channels x sources), rows labelled, every element times
    1,000,000, then transposed *)
Definition forward_model_spec (names : list string) (raw : ndarray)
  : Matrix :=
  {| index := RangeIndex (ncols raw);
     columns := map Name names;
     values := transpose (scale_r raw million) |}.

End Arrays.

(** ** A pseudo-inverse for diagonal arrays *)

Section Diagonal.
Context {R : Type} `{Scalar R}.

(** The Moore-Penrose pseudo-inverse of a (rectangular) diagonal array:
    transpose, and invert the diagonal entries that are not zero.  It is
    the instance of [pinv] the concrete runs below are made with; their
    forward tables are chosen so that every array it receives is
    diagonal. *)
Definition pinv_diag (a : ndarray) : ndarray :=
  map (fun j =>
         map (fun i =>
                if i =? j
                then (if is_zero (entry a i j) then rzero
                      else rdiv rone (entry a i j))
                else rzero)
             (seq 0 (nrows a)))
      (seq 0 (ncols a)).

End Diagonal.

(** ** Exact rationals as scalars *)

Lemma Q_pos_not_zero (x : Q) :
  negb (Qle_bool x 0) = true -> Qeq_bool x 0 = false.
Proof.
  intros Hpos. apply negb_true_iff in Hpos.
  destruct (Qeq_bool x 0) eqn:E; [|reflexivity].
  apply Qeq_bool_iff in E.
  assert (Hle : Qle_bool x 0 = true).
  { apply Qle_bool_iff. rewrite E. apply Qle_refl. }
  congruence.
Qed.

#[export] Instance Q_Scalar : Scalar Q := {|
  rzero := 0%Q;
  rone := 1%Q;
  million := 1000000%Q;
  radd := Qplus;
  rmul := Qmult;
  rdiv := Qdiv;
  is_zero := fun x => Qeq_bool x 0;
  rpos := fun x => negb (Qle_bool x 0);
  rpos_not_zero := Q_pos_not_zero
|}.

(** ** Concrete data directories *)

(** The (rows x cols) table with ones on the diagonal. *)
Definition unit_table (rows cols : nat) : ndarray (R := Q) :=
  map (fun i => map (fun j => if i =? j then 1%Q else 0%Q) (seq 0 cols))
      (seq 0 rows).

(** A directory holding, for emotiv only, a forward table over [sources]
    vertices and the identity as coherence and as its inverse. *)
Definition sbs2_dir (sources : nat) : assets (R := Q) :=
  fun hardware file =>
    if (hardware =? "emotiv")%string then
      if (file =? forward_file)%string then Some (unit_table 14 sources)
      else if (file =? coherence_file)%string
           then Some (unit_table sources sources)
      else if (file =? inverse_coherence_file)%string
           then Some (unit_table sources sources)
      else None
    else None.

(** The same forward table with no coherence file at all. *)
Definition sbs2_dir_forward_only (sources : nat) : assets (R := Q) :=
  fun hardware file =>
    if (hardware =? "emotiv")%string then
      if (file =? forward_file)%string then Some (unit_table 14 sources)
      else None
    else None.

(** The vertex count of the reduced mesh of the reference data. *)
Definition reference_sources : nat := 1028.

(** The reference hyperparameters, alpha = 0.01 and beta = 0.3781. *)
Definition inv_alpha_default : Q := 1 # 100.
Definition inv_beta_default : Q := 3781 # 10000.

(** ** Shapes of the array operations *)

Section Shapes.
Context {R : Type} `{Scalar R}.

Lemma is_shape_shaped (r c : nat) (a : ndarray (R := R)) :
  is_shape r c a = true <-> shaped r c a.
Proof.
  unfold is_shape, shaped.
  rewrite andb_true_iff, Nat.eqb_eq, forallb_forall, Forall_forall.
  split; intros [Hr Hc]; split; auto; intros row Hin.
  - apply Nat.eqb_eq; auto.
  - apply Nat.eqb_eq; auto.
Qed.

Lemma shaped_nrows (r c : nat) (a : ndarray (R := R)) :
  shaped r c a -> nrows a = r.
Proof. intros [Hr _]; exact Hr. Qed.

Lemma shaped_ncols (r c : nat) (a : ndarray (R := R)) :
  0 < r -> shaped r c a -> ncols a = c.
Proof.
  intros Hpos [Hr Hc]. destruct a as [|row a]; simpl in *.
  - lia.
  - inversion Hc; assumption.
Qed.

Lemma length_column (j : nat) (a : ndarray (R := R)) :
  length (column j a) = length a.
Proof. unfold column; apply length_map. Qed.

Lemma shaped_transpose (r c : nat) (a : ndarray (R := R)) :
  0 < r -> shaped r c a -> shaped c r (transpose a).
Proof.
  intros Hpos Ha. unfold transpose, shaped.
  rewrite length_map, length_seq, (shaped_ncols r c a Hpos Ha).
  split; [reflexivity|].
  apply Forall_forall; intros row Hin.
  apply in_map_iff in Hin as [j [<- _]].
  rewrite length_column. apply Ha.
Qed.

Lemma shaped_matmul (r k c : nat) (a b : ndarray (R := R)) :
  shaped r k a -> ncols b = c -> shaped r c (matmul a b).
Proof.
  intros [Hr _] Hc. unfold matmul, shaped.
  rewrite length_map. split; [assumption|].
  apply Forall_forall; intros row Hin.
  apply in_map_iff in Hin as [u [<- _]].
  now rewrite length_map, length_seq.
Qed.

Lemma shaped_scale (r c : nat) (k : R) (a : ndarray) :
  shaped r c a -> shaped r c (scale k a).
Proof.
  intros [Hr Hc]. unfold scale, shaped. rewrite length_map.
  split; [assumption|].
  apply Forall_forall; intros row Hin.
  apply in_map_iff in Hin as [u [<- Hu]].
  rewrite length_map. rewrite Forall_forall in Hc; auto.
Qed.

Lemma shaped_scale_r (r c : nat) (k : R) (a : ndarray) :
  shaped r c a -> shaped r c (scale_r a k).
Proof.
  intros [Hr Hc]. unfold scale_r, shaped. rewrite length_map.
  split; [assumption|].
  apply Forall_forall; intros row Hin.
  apply in_map_iff in Hin as [u [<- Hu]].
  rewrite length_map. rewrite Forall_forall in Hc; auto.
Qed.

Lemma shaped_eye (n : nat) : shaped n n (eye n : ndarray (R := R)).
Proof.
  unfold eye, shaped. rewrite length_map, length_seq.
  split; [reflexivity|].
  apply Forall_forall; intros row Hin.
  apply in_map_iff in Hin as [i [<- _]].
  now rewrite length_map, length_seq.
Qed.

Lemma length_zip_with {A B C : Type} (f : A -> B -> C) (u : list A) :
  forall v n, length u = n -> length v = n -> length (zip_with f u v) = n.
Proof.
  induction u as [|x u IH]; intros [|y v] n Hu Hv; simpl in *;
    try congruence.
  destruct n as [|n]; [discriminate|].
  f_equal. apply IH; congruence.
Qed.

Lemma shaped_mplus (c : nat) (a : ndarray (R := R)) :
  forall r b, shaped r c a -> shaped r c b -> shaped r c (mplus a b).
Proof.
  unfold mplus, shaped.
  induction a as [|u a IH]; intros r [|v b] [Hra Hca] [Hrb Hcb];
    simpl in *.
  - split; [assumption | constructor].
  - split; [assumption | constructor].
  - split; [assumption | constructor].
  - destruct r as [|r]; [discriminate Hra|].
    inversion Hca; inversion Hcb; subst.
    destruct (IH r b) as [Hlen Hrows].
    + split; [congruence | assumption].
    + split; [congruence | assumption].
    + split; [congruence|].
      constructor; [|assumption].
      apply length_zip_with; congruence.
Qed.

Lemma dot_aligned (a b : ndarray (R := R)) :
  ncols a = nrows b -> dot a b = Ok (matmul a b).
Proof. intros E. unfold dot. now rewrite E, Nat.eqb_refl. Qed.

Lemma add_same_shape (r c : nat) (a b : ndarray (R := R)) :
  0 < r -> shaped r c a -> shaped r c b -> add a b = Ok (mplus a b).
Proof.
  intros Hpos Ha Hb. unfold add.
  rewrite (shaped_nrows _ _ _ Ha), (shaped_nrows _ _ _ Hb).
  rewrite (shaped_ncols _ _ _ Hpos Ha), (shaped_ncols _ _ _ Hpos Hb).
  now rewrite !Nat.eqb_refl.
Qed.

Lemma divide_pos (x y : R) : rpos y = true -> divide x y = Ok (rdiv x y).
Proof. intros Hy. unfold divide. now rewrite (rpos_not_zero y Hy). Qed.

Lemma length_RangeIndex (n : nat) : length (RangeIndex n) = n.
Proof. unfold RangeIndex. now rewrite length_map, length_seq. Qed.

End Shapes.

(** ** The hardware catalog *)

Lemma electrode_names_supported (hardware : string) :
  supported hardware ->
  exists names,
    electrode_names hardware = Ok names /\ length names = 14.
Proof.
  intros [-> | ->].
  - exists SBS2_ELECTRODES_EMOTIV. split; reflexivity.
  - exists SBS2_ELECTRODES_EMOCAP. split; reflexivity.
Qed.

Lemma electrode_names_unsupported (hardware : string) :
  ~ supported hardware ->
  electrode_names hardware = Error (ValueError "Wrong argument to model").
Proof.
  intros Hno. unfold electrode_names.
  destruct (String.eqb_spec hardware "emotiv") as [E | _].
  - exfalso. apply Hno. left. exact E.
  - destruct (String.eqb_spec hardware "emocap") as [E | _].
    + exfalso. apply Hno. right. exact E.
    + reflexivity.
Qed.

Lemma electrode_names_ok_inv (hardware : string) (names : list string) :
  electrode_names hardware = Ok names ->
  supported hardware /\ length names = 14.
Proof.
  unfold electrode_names, supported.
  destruct (String.eqb_spec hardware "emotiv") as [E | _].
  - intros [= <-]. split; [left; exact E | reflexivity].
  - destruct (String.eqb_spec hardware "emocap") as [E | _].
    + intros [= <-]. split; [right; exact E | reflexivity].
    + discriminate.
Qed.

(** C7.  [electrode_names] returns the hardcoded 14-element sequence for
    emotiv and for emocap, the two sequences differ, and for every other
    argument it fails with the ValueError (InvalidArgument); so it fails
    exactly when the hardware is neither emotiv nor emocap.  It is a
    function of its argument alone: there is no state it could touch. *)
Theorem electrode_names_catalog :
  electrode_names "emotiv" = Ok SBS2_ELECTRODES_EMOTIV /\
  electrode_names "emocap" = Ok SBS2_ELECTRODES_EMOCAP /\
  length SBS2_ELECTRODES_EMOTIV = 14 /\
  length SBS2_ELECTRODES_EMOCAP = 14 /\
  SBS2_ELECTRODES_EMOTIV <> SBS2_ELECTRODES_EMOCAP /\
  forall hardware,
    ((exists e, electrode_names hardware = Error e) <-> ~ supported hardware)
    /\ (forall e, electrode_names hardware = Error e -> InvalidArgument e).
Proof.
  repeat split; try reflexivity.
  - discriminate.
  - intros [e He] Hsup.
    destruct (electrode_names_supported hardware Hsup) as [names [Hn _]].
    congruence.
  - intros Hno. eexists. apply electrode_names_unsupported. exact Hno.
  - intros e He. unfold electrode_names in He.
    destruct (hardware =? "emotiv")%string; [discriminate|].
    destruct (hardware =? "emocap")%string; [discriminate|].
    injection He as <-. eexists. reflexivity.
Qed.

(** ** The forward model *)

Section Forward.
Context {R : Type} `{Scalar R}.

Lemma entry_transpose (a : ndarray (R := R)) (i j : nat) :
  i < nrows a -> j < ncols a -> entry (transpose a) j i = entry a i j.
Proof.
  intros Hi Hj. unfold entry, transpose, nrows in *.
  rewrite (nth_indep _ [] (column 0 a))
    by (now rewrite length_map, length_seq).
  rewrite (map_nth (fun k => column k a) (seq 0 (ncols a)) 0 j).
  rewrite seq_nth by assumption. simpl.
  unfold column.
  rewrite (nth_indep _ rzero (nth j [] rzero)) by (now rewrite length_map).
  apply (map_nth (fun row => nth j row rzero) a [] i).
Qed.

Lemma entry_scale_r (a : ndarray (R := R)) (k : R) (i j : nat) :
  i < nrows a -> j < length (nth i a []) ->
  entry (scale_r a k) i j = rmul (entry a i j) k.
Proof.
  intros Hi Hj. unfold entry, scale_r, nrows in *.
  change (@nil R) with (map (fun x => rmul x k) []) at 1.
  rewrite (map_nth (map (fun x => rmul x k)) a [] i).
  rewrite (nth_indep _ rzero (rmul rzero k)) by (now rewrite length_map).
  apply (map_nth (fun x => rmul x k)).
Qed.

Lemma shaped_row_length (r c : nat) (a : ndarray (R := R)) (i : nat) :
  shaped r c a -> i < r -> length (nth i a []) = c.
Proof.
  intros [Hr Hc] Hi. rewrite Forall_forall in Hc.
  apply Hc, nth_In. lia.
Qed.

Lemma forward_model_ok (fs : assets) (hardware : string)
    (names : list string) (raw : ndarray (R := R)) :
  electrode_names hardware = Ok names ->
  fs hardware forward_file = Some raw ->
  nrows raw = 14 ->
  forward_model fs hardware = Ok (forward_model_spec names raw).
Proof.
  intros Hnames Hraw Hrows.
  destruct (electrode_names_ok_inv _ _ Hnames) as [_ Hlen].
  unfold forward_model, read_csv. rewrite Hraw. cbn [bind].
  rewrite Hnames. cbn [bind].
  unfold set_index. simpl index.
  rewrite length_map, length_RangeIndex, Hlen, Hrows.
  reflexivity.
Qed.

Lemma forward_model_spec_shaped (names : list string)
    (raw : ndarray (R := R)) (n : nat) :
  shaped 14 n raw -> shaped n 14 (values (forward_model_spec names raw)).
Proof.
  intros Hshape. simpl. apply shaped_transpose; [lia|].
  apply shaped_scale_r. exact Hshape.
Qed.

Lemma forward_model_spec_shape (names : list string)
    (raw : ndarray (R := R)) (n : nat) :
  length names = 14 -> shaped 14 n raw ->
  shape (forward_model_spec names raw) = (n, 14).
Proof.
  intros Hlen Hshape. unfold shape, forward_model_spec. simpl.
  rewrite length_RangeIndex, length_map, Hlen.
  rewrite (shaped_ncols 14 n raw); [reflexivity | lia | exact Hshape].
Qed.

(** C3.  With the raw table of shape (channels x sources) = (14 x n) on
    disk, [forward_model] returns the table built as the specification
    says: rows labelled by the electrode names, every element multiplied
    by 1,000,000 once, then transposed.  The result has shape (n, 14), its
    columns carry the electrode names in catalog order, and its element
    (j, i) is the raw element (i, j) times 1,000,000. *)
Theorem forward_model_construction (fs : assets) (hardware : string)
    (names : list string) (raw : ndarray (R := R)) (n : nat) :
  electrode_names hardware = Ok names ->
  fs hardware forward_file = Some raw ->
  shaped 14 n raw ->
  forward_model fs hardware = Ok (forward_model_spec names raw) /\
  shape (forward_model_spec names raw) = (n, 14) /\
  shaped n 14 (values (forward_model_spec names raw)) /\
  columns (forward_model_spec names raw) = map Name names /\
  forall i j, i < 14 -> j < n ->
    entry (values (forward_model_spec names raw)) j i
    = rmul (entry raw i j) million.
Proof.
  intros Hnames Hraw Hshape.
  destruct (electrode_names_ok_inv _ _ Hnames) as [_ Hlen].
  assert (Hpos : 0 < 14) by lia.
  pose proof (shaped_scale_r _ _ million _ Hshape) as Hscaled.
  split; [|split; [|split; [|split]]].
  - apply forward_model_ok; [assumption | assumption | apply Hshape].
  - apply forward_model_spec_shape; assumption.
  - apply forward_model_spec_shaped; assumption.
  - reflexivity.
  - intros i j Hi Hj. simpl.
    rewrite entry_transpose.
    + apply entry_scale_r.
      * destruct Hshape as [Hr _]. unfold nrows. lia.
      * now rewrite (shaped_row_length _ _ _ _ Hshape Hi).
    + destruct Hscaled as [Hr _]. unfold nrows. lia.
    + now rewrite (shaped_ncols _ _ _ Hpos Hscaled).
Qed.

(** The errors of [forward_model], in the order the code meets them. *)
Lemma forward_model_unreadable (fs : assets (R := R)) (hardware : string) :
  fs hardware forward_file = None ->
  forward_model fs hardware = Error DataUnavailable.
Proof.
  intros Hnone. unfold forward_model, read_csv. now rewrite Hnone.
Qed.

(** C4, as the code has it.  [forward_model] reads the file before it asks
    the catalog.  For a hardware outside emotiv and emocap it therefore
    fails with DataUnavailable, the error of the read, when no forward
    table can be read under that name, and with the catalog's ValueError
    (InvalidArgument) only when the read succeeds.  For a valid hardware a
    table that cannot be read is DataUnavailable; a table that is read but
    does not have 14 rows, such as a truncated one, is not: it is refused
    with the ValueError of the relabelling; a table of 14 rows is
    returned, scaled and transposed. *)
Theorem forward_model_rejects (fs : assets (R := R))
    (hardware valid : string) (names : list string) :
  ~ supported hardware ->
  electrode_names valid = Ok names ->
  forward_model fs hardware
  = match fs hardware forward_file with
    | None => Error DataUnavailable
    | Some _ => Error (ValueError "Wrong argument to model")
    end /\
  (forall raw e,
     fs hardware forward_file = Some raw ->
     electrode_names hardware = Error e ->
     forward_model fs hardware = Error e) /\
  forward_model fs valid
  = match fs valid forward_file with
    | None => Error DataUnavailable
    | Some raw =>
        if nrows raw =? 14 then Ok (forward_model_spec names raw)
        else Error (ValueError "Length mismatch")
    end.
Proof.
  intros Hno Hvalid.
  pose proof (electrode_names_unsupported hardware Hno) as Hnames.
  split; [|split].
  - unfold forward_model, read_csv.
    destruct (fs hardware forward_file); cbn [bind]; [|reflexivity].
    now rewrite Hnames.
  - intros raw e Hraw He. unfold forward_model, read_csv.
    rewrite Hraw. cbn [bind]. now rewrite He.
  - destruct (fs valid forward_file) as [raw|] eqn:Hraw.
    + destruct (Nat.eqb_spec (nrows raw) 14) as [Hrows | Hrows].
      * now apply forward_model_ok.
      * destruct (electrode_names_ok_inv _ _ Hvalid) as [_ Hlen].
        unfold forward_model, read_csv. rewrite Hraw. cbn [bind].
        rewrite Hvalid. cbn [bind]. unfold set_index. simpl index.
        rewrite length_map, length_RangeIndex, Hlen.
        destruct (Nat.eqb_spec 14 (nrows raw)) as [E | _];
          [congruence | reflexivity].
    + apply forward_model_unreadable. exact Hraw.
Qed.

Lemma forward_model_ok_inv (fs : assets (R := R)) (hardware : string)
    (F : Matrix) :
  forward_model fs hardware = Ok F ->
  exists names, electrode_names hardware = Ok names /\ length names = 14.
Proof.
  unfold forward_model. intros HF.
  destruct (read_csv fs hardware forward_file) as [raw | e];
    cbn [bind] in HF; [|discriminate].
  destruct (electrode_names hardware) as [names | e] eqn:Hnames;
    cbn [bind] in HF; [|discriminate].
  exists names. split; [reflexivity|].
  apply (electrode_names_ok_inv hardware names Hnames).
Qed.

End Forward.

(** ** The inverse model *)

Section Inverse.
Context {R : Type} `{Scalar R}.
Variable pinv : ndarray (R := R) -> ndarray (R := R).

(** The one property of [scipy.linalg.pinv] the pipeline relies on: the
    pseudo-inverse of an (r x c) array is (c x r). *)
Hypothesis pinv_shape :
  forall (r c : nat) (a : ndarray), 0 < r -> shaped r c a -> shaped c r (pinv a).

Lemma inverse_model_minimumnorm (fs : assets) (hardware : string)
    (inv_alpha inv_beta : R) :
  inverse_model pinv fs hardware "minimumnorm" inv_alpha inv_beta
  = (F <- forward_model fs hardware ;;
     inverse <-
       (gram <- dot (transpose (values F)) (values F) ;;
        ratio <- divide inv_beta inv_alpha ;;
        regularized <- add gram (scale ratio (eye (ncols (values F)))) ;;
        dot (pinv regularized) (transpose (values F))) ;;
     names <- electrode_names hardware ;;
     set_index (mk_Matrix inverse) (map Name names)).
Proof. reflexivity. Qed.

Lemma inverse_model_LORETA (fs : assets) (hardware : string)
    (inv_alpha inv_beta : R) :
  inverse_model pinv fs hardware "LORETA" inv_alpha inv_beta
  = (F <- forward_model fs hardware ;;
     inverse <-
       (L <- spatial_coherence fs hardware ;;
        forward_and_coherence <- dot (values L) (values F) ;;
        gram <- dot (transpose (values F)) forward_and_coherence ;;
        sigma_inv <- add (scale inv_alpha gram)
                         (scale inv_beta (eye (ncols (values F)))) ;;
        product <- dot (pinv sigma_inv) (transpose forward_and_coherence) ;;
        Ok (scale inv_alpha product)) ;;
     names <- electrode_names hardware ;;
     set_index (mk_Matrix inverse) (map Name names)).
Proof. reflexivity. Qed.

Lemma label_rows (inverse : ndarray (R := R)) (names : list string)
    (c n : nat) :
  0 < c -> shaped c n inverse -> length names = c ->
  set_index (mk_Matrix inverse) (map Name names)
  = Ok {| index := map Name names; columns := RangeIndex n;
          values := inverse |}.
Proof.
  intros Hpos Hshape Hlen. unfold set_index, mk_Matrix. simpl.
  rewrite length_map, length_RangeIndex, Hlen.
  rewrite (shaped_nrows _ _ _ Hshape), Nat.eqb_refl.
  now rewrite (shaped_ncols _ _ _ Hpos Hshape).
Qed.

Lemma minimumnorm_steps (forward : ndarray (R := R)) (n c : nat)
    (inv_alpha inv_beta : R) :
  0 < n -> 0 < c -> shaped n c forward -> rpos inv_alpha = true ->
  (gram <- dot (transpose forward) forward ;;
   ratio <- divide inv_beta inv_alpha ;;
   regularized <- add gram (scale ratio (eye (ncols forward))) ;;
   dot (pinv regularized) (transpose forward))
  = Ok (minimumnorm_spec pinv inv_alpha inv_beta forward) /\
  shaped c n (minimumnorm_spec pinv inv_alpha inv_beta forward).
Proof.
  intros Hn Hc HF Halpha.
  pose proof (shaped_transpose _ _ _ Hn HF) as HFt.
  pose proof (shaped_ncols _ _ _ Hn HF) as HFc.
  pose proof (shaped_ncols _ _ _ Hc HFt) as HFtc.
  assert (Hgram : shaped c c (matmul (transpose forward) forward))
    by (eapply shaped_matmul; eassumption).
  assert (Hreg : shaped c c
            (mplus (matmul (transpose forward) forward)
                   (scale (rdiv inv_beta inv_alpha) (eye (ncols forward))))).
  { apply shaped_mplus; [assumption|].
    apply shaped_scale. rewrite HFc. apply shaped_eye. }
  pose proof (pinv_shape _ _ _ Hc Hreg) as Hpinv.
  split.
  - rewrite dot_aligned
      by (rewrite HFtc; symmetry; apply (shaped_nrows _ _ _ HF)).
    cbn [bind]. rewrite (divide_pos _ _ Halpha). cbn [bind].
    rewrite (add_same_shape c c); [|assumption|assumption|].
    + cbn [bind]. apply dot_aligned.
      rewrite (shaped_ncols _ _ _ Hc Hpinv).
      symmetry; apply (shaped_nrows _ _ _ HFt).
    + apply shaped_scale. rewrite HFc. apply shaped_eye.
  - unfold minimumnorm_spec. eapply shaped_matmul; eassumption.
Qed.

Lemma LORETA_steps (forward coherence : ndarray (R := R)) (n c : nat)
    (inv_alpha inv_beta : R) :
  0 < n -> 0 < c -> shaped n c forward -> shaped n n coherence ->
  (forward_and_coherence <- dot coherence forward ;;
   gram <- dot (transpose forward) forward_and_coherence ;;
   sigma_inv <- add (scale inv_alpha gram)
                    (scale inv_beta (eye (ncols forward))) ;;
   product <- dot (pinv sigma_inv) (transpose forward_and_coherence) ;;
   Ok (scale inv_alpha product))
  = Ok (loreta_spec pinv inv_alpha inv_beta forward coherence) /\
  shaped c n (loreta_spec pinv inv_alpha inv_beta forward coherence).
Proof.
  intros Hn Hc HF HL.
  pose proof (shaped_transpose _ _ _ Hn HF) as HFt.
  pose proof (shaped_ncols _ _ _ Hn HF) as HFc.
  pose proof (shaped_ncols _ _ _ Hc HFt) as HFtc.
  assert (HFC : shaped n c (matmul coherence forward))
    by (eapply shaped_matmul; eassumption).
  pose proof (shaped_transpose _ _ _ Hn HFC) as HFCt.
  assert (Hgram : shaped c c
            (matmul (transpose forward) (matmul coherence forward))).
  { eapply shaped_matmul; [eassumption|].
    apply (shaped_ncols _ _ _ Hn HFC). }
  assert (Heye : shaped c c (scale inv_beta (eye (ncols forward)))).
  { apply shaped_scale. rewrite HFc. apply shaped_eye. }
  assert (Hsig : shaped c c
            (mplus (scale inv_alpha
                      (matmul (transpose forward) (matmul coherence forward)))
                   (scale inv_beta (eye (ncols forward))))).
  { apply shaped_mplus; [apply shaped_scale|]; assumption. }
  pose proof (pinv_shape _ _ _ Hc Hsig) as Hpinv.
  split.
  - rewrite dot_aligned.
    2:{ rewrite (shaped_ncols _ _ _ Hn HL).
        symmetry; apply (shaped_nrows _ _ _ HF). }
    cbn [bind]. rewrite dot_aligned.
    2:{ rewrite HFtc. symmetry; apply (shaped_nrows _ _ _ HFC). }
    cbn [bind].
    rewrite (add_same_shape c c);
      [|assumption|apply shaped_scale; assumption|assumption].
    cbn [bind]. rewrite dot_aligned.
    2:{ rewrite (shaped_ncols _ _ _ Hc Hpinv).
        symmetry; apply (shaped_nrows _ _ _ HFCt). }
    reflexivity.
  - unfold loreta_spec. apply shaped_scale.
    eapply shaped_matmul; [eassumption|].
    apply (shaped_ncols _ _ _ Hc HFCt).
Qed.

Lemma inverse_model_minimumnorm_ok (fs : assets) (hardware : string)
    (inv_alpha inv_beta : R) (F : Matrix) (names : list string) (n : nat) :
  forward_model fs hardware = Ok F ->
  electrode_names hardware = Ok names ->
  0 < n ->
  shaped n 14 (values F) ->
  rpos inv_alpha = true ->
  inverse_model pinv fs hardware "minimumnorm" inv_alpha inv_beta
  = Ok {| index := map Name names;
          columns := RangeIndex n;
          values := minimumnorm_spec pinv inv_alpha inv_beta (values F) |}.
Proof.
  intros HF Hnames Hn Hshape Halpha.
  destruct (electrode_names_ok_inv _ _ Hnames) as [_ Hlen].
  assert (Hc : 0 < 14) by lia.
  destruct (minimumnorm_steps (values F) n 14 inv_alpha inv_beta
              Hn Hc Hshape Halpha) as [Hsteps Hout].
  rewrite inverse_model_minimumnorm, HF. cbn [bind].
  rewrite Hsteps. cbn [bind]. rewrite Hnames. cbn [bind].
  apply (label_rows _ _ 14 n); assumption.
Qed.

Lemma inverse_model_LORETA_ok (fs : assets) (hardware : string)
    (inv_alpha inv_beta : R) (F L : Matrix) (names : list string)
    (n : nat) :
  forward_model fs hardware = Ok F ->
  spatial_coherence fs hardware = Ok L ->
  electrode_names hardware = Ok names ->
  0 < n ->
  shaped n 14 (values F) ->
  shaped n n (values L) ->
  inverse_model pinv fs hardware "LORETA" inv_alpha inv_beta
  = Ok {| index := map Name names;
          columns := RangeIndex n;
          values := loreta_spec pinv inv_alpha inv_beta
                      (values F) (values L) |}.
Proof.
  intros HF HL Hnames Hn HFs HLs.
  destruct (electrode_names_ok_inv _ _ Hnames) as [_ Hlen].
  assert (Hc : 0 < 14) by lia.
  destruct (LORETA_steps (values F) (values L) n 14 inv_alpha inv_beta
              Hn Hc HFs HLs) as [Hsteps Hout].
  rewrite inverse_model_LORETA, HF. cbn [bind].
  rewrite HL. cbn [bind].
  rewrite Hsteps. cbn [bind]. rewrite Hnames. cbn [bind].
  apply (label_rows _ _ 14 n); assumption.
Qed.

(** C2.  With F the forward model, of shape (sources x channels) =
    (n x 14), and alpha > 0, the minimum-norm operator is
    pinv(F^T . F + (beta/alpha) . I) . F^T with I the identity on the
    channels; it is returned with the electrode names on its rows.  No
    coherence matrix enters the formula.  Nothing is asked of beta. *)
Theorem minimumnorm_formula (fs : assets) (hardware : string)
    (inv_alpha inv_beta : R) (F : Matrix) (n : nat) :
  forward_model fs hardware = Ok F ->
  0 < n ->
  shaped n 14 (values F) ->
  rpos inv_alpha = true ->
  exists names,
    electrode_names hardware = Ok names /\
    inverse_model pinv fs hardware "minimumnorm" inv_alpha inv_beta
    = Ok {| index := map Name names;
            columns := RangeIndex n;
            values := minimumnorm_spec pinv inv_alpha inv_beta (values F) |}.
Proof.
  intros HF Hn Hshape Halpha.
  destruct (forward_model_ok_inv _ _ _ HF) as [names [Hnames _]].
  exists names. split; [assumption|].
  now apply inverse_model_minimumnorm_ok.
Qed.

(** C1.  With F the forward model (n x 14) and L the spatial coherence
    (n x n), the LORETA operator is
    alpha . pinv(alpha . (F^T . (L . F)) + beta . I) . (L . F)^T:
    alpha is used inside Sigma_inv and once more as the outer factor.  It
    is returned with the electrode names on its rows.  Nothing is asked of
    alpha or beta. *)
Theorem LORETA_formula (fs : assets) (hardware : string)
    (inv_alpha inv_beta : R) (F L : Matrix) (n : nat) :
  forward_model fs hardware = Ok F ->
  spatial_coherence fs hardware = Ok L ->
  0 < n ->
  shaped n 14 (values F) ->
  shaped n n (values L) ->
  exists names,
    electrode_names hardware = Ok names /\
    inverse_model pinv fs hardware "LORETA" inv_alpha inv_beta
    = Ok {| index := map Name names;
            columns := RangeIndex n;
            values := loreta_spec pinv inv_alpha inv_beta
                        (values F) (values L) |}.
Proof.
  intros HF HL Hn HFs HLs.
  destruct (forward_model_ok_inv _ _ _ HF) as [names [Hnames _]].
  exists names. split; [assumption|].
  now apply inverse_model_LORETA_ok.
Qed.

(** C6.  Whatever [inverse_model] returns carries, as row labels, the
    electrode names of the hardware in catalog order. *)
Theorem inverse_model_row_labels (fs : assets) (hardware method : string)
    (inv_alpha inv_beta : R) (M : Matrix) :
  inverse_model pinv fs hardware method inv_alpha inv_beta = Ok M ->
  exists names,
    electrode_names hardware = Ok names /\ index M = map Name names.
Proof.
  unfold inverse_model. intros HM.
  destruct (forward_model fs hardware) as [F | e]; cbn [bind] in HM;
    [|discriminate].
  match type of HM with
  | bind ?branch _ = _ => destruct branch as [inverse | e]
  end; cbn [bind] in HM; [|discriminate].
  destruct (electrode_names hardware) as [names | e]; cbn [bind] in HM;
    [|discriminate].
  exists names. split; [reflexivity|].
  unfold set_index in HM.
  destruct (length (map Name names) =? length (index (mk_Matrix inverse)));
    [|discriminate].
  injection HM as <-. reflexivity.
Qed.

(** C8.  For a supported hardware and a method that is neither
    minimumnorm nor LORETA, [inverse_model] fails with the ValueError
    (InvalidArgument) as soon as the forward model is obtained; a failure
    of [forward_model] comes out unchanged, for every method, and so does
    a failure of [spatial_coherence] under LORETA. *)
Theorem inverse_model_errors (fs : assets) (hardware method : string)
    (inv_alpha inv_beta : R) :
  supported hardware ->
  ~ valid_method method ->
  (forall F, forward_model fs hardware = Ok F ->
     inverse_model pinv fs hardware method inv_alpha inv_beta
     = Error (ValueError "Wrong method")) /\
  (forall e any, forward_model fs hardware = Error e ->
     inverse_model pinv fs hardware any inv_alpha inv_beta = Error e) /\
  (forall F e, forward_model fs hardware = Ok F ->
     spatial_coherence fs hardware = Error e ->
     inverse_model pinv fs hardware "LORETA" inv_alpha inv_beta = Error e).
Proof.
  intros _ Hbad. split; [|split].
  - intros F HF. unfold inverse_model. rewrite HF. cbn [bind].
    destruct (String.eqb_spec method "minimumnorm") as [E | _].
    { exfalso. apply Hbad. left. exact E. }
    destruct (String.eqb_spec method "LORETA") as [E | _].
    { exfalso. apply Hbad. right. exact E. }
    reflexivity.
  - intros e any HF. unfold inverse_model. now rewrite HF.
  - intros F e HF HL. rewrite inverse_model_LORETA, HF. cbn [bind].
    now rewrite HL.
Qed.

(** C10.  Under minimumnorm the result does not depend on the coherence
    files: two data directories that hold the same forward table for the
    hardware give the same outcome, whatever else they hold or lack. *)
Theorem minimumnorm_ignores_coherence (fs1 fs2 : assets)
    (hardware : string) (inv_alpha inv_beta : R) :
  fs1 hardware forward_file = fs2 hardware forward_file ->
  inverse_model pinv fs1 hardware "minimumnorm" inv_alpha inv_beta
  = inverse_model pinv fs2 hardware "minimumnorm" inv_alpha inv_beta.
Proof.
  intros Hsame. rewrite !inverse_model_minimumnorm.
  unfold forward_model, read_csv. rewrite Hsame. reflexivity.
Qed.

Lemma shape_mk_Matrix (a : ndarray (R := R)) (r c : nat) :
  0 < r -> shaped r c a -> shape (mk_Matrix a) = (r, c).
Proof.
  intros Hpos Ha. unfold shape, mk_Matrix. simpl.
  rewrite !length_RangeIndex.
  now rewrite (shaped_nrows _ _ _ Ha), (shaped_ncols _ _ _ Hpos Ha).
Qed.

(** Shapes along the whole pipeline, for any number [n] of vertices: of
    the labels and of the values. *)
Lemma pipeline_shapes (n : nat) (fs : assets) (hardware : string)
    (raw K Kinv : ndarray (R := R)) :
  supported hardware ->
  0 < n ->
  fs hardware forward_file = Some raw -> shaped 14 n raw ->
  fs hardware coherence_file = Some K -> shaped n n K ->
  fs hardware inverse_coherence_file = Some Kinv -> shaped n n Kinv ->
  exists F names L Linv,
    forward_model fs hardware = Ok F /\
    electrode_names hardware = Ok names /\
    spatial_coherence fs hardware = Ok L /\
    inverse_spatial_coherence fs hardware = Ok Linv /\
    shape F = (n, 14) /\
    shaped n 14 (values F) /\
    length names = 14 /\
    shape L = (n, n) /\
    shaped n n (values L) /\
    shape Linv = (n, n) /\
    shaped n n (values Linv) /\
    forall method inv_alpha inv_beta,
      valid_method method ->
      rpos inv_alpha = true ->
      exists M,
        inverse_model pinv fs hardware method inv_alpha inv_beta = Ok M /\
        shape M = (14, n) /\
        shaped 14 n (values M).
Proof.
  intros Hsup Hn Hraw Hraws HK HKs HKinv HKinvs.
  destruct (electrode_names_supported hardware Hsup) as [names [Hnames Hlen]].
  pose proof (forward_model_ok fs hardware names raw Hnames Hraw
                (proj1 Hraws)) as HF.
  pose proof (forward_model_spec_shaped names raw n Hraws) as HFvalues.
  assert (HL : spatial_coherence fs hardware = Ok (mk_Matrix K)).
  { unfold spatial_coherence, read_csv. now rewrite HK. }
  assert (HLinv :
    inverse_spatial_coherence fs hardware = Ok (mk_Matrix Kinv)).
  { unfold inverse_spatial_coherence, read_csv. now rewrite HKinv. }
  assert (Hc : 0 < 14) by lia.
  exists (forward_model_spec names raw), names,
    (mk_Matrix K), (mk_Matrix Kinv).
  repeat (split;
    [first [assumption | now apply shape_mk_Matrix
           | now apply forward_model_spec_shape]|]).
  intros method inv_alpha inv_beta [-> | ->] Halpha; eexists.
  - split; [|split].
    + apply (inverse_model_minimumnorm_ok fs hardware inv_alpha inv_beta
               _ names n HF Hnames Hn HFvalues Halpha).
    + unfold shape. simpl.
      now rewrite length_map, length_RangeIndex, Hlen.
    + apply (minimumnorm_steps _ n 14 inv_alpha inv_beta
               Hn Hc HFvalues Halpha).
  - split; [|split].
    + apply (inverse_model_LORETA_ok fs hardware inv_alpha inv_beta
               _ _ names n HF HL Hnames Hn HFvalues HKs).
    + unfold shape. simpl.
      now rewrite length_map, length_RangeIndex, Hlen.
    + apply (LORETA_steps _ (values (mk_Matrix K)) n 14 inv_alpha inv_beta
               Hn Hc HFvalues HKs).
Qed.

(** C5.  With the reference tables on disk (forward 14 x 1028, coherence
    and inverse coherence 1028 x 1028), for a supported hardware:
    [forward_model] has shape (1028, 14), 14 being the number of electrode
    names; [spatial_coherence] and [inverse_spatial_coherence] are both
    (1028, 1028), the row count of the forward model; and [inverse_model]
    has shape (14, 1028) for both methods (alpha > 0).  Each shape is that
    of the labels and of the values: as many rows of values, each of as
    many entries. *)
Theorem reference_shapes (fs : assets) (hardware : string)
    (raw K Kinv : ndarray (R := R)) :
  supported hardware ->
  fs hardware forward_file = Some raw ->
  shaped 14 1028 raw ->
  fs hardware coherence_file = Some K ->
  shaped 1028 1028 K ->
  fs hardware inverse_coherence_file = Some Kinv ->
  shaped 1028 1028 Kinv ->
  exists F names L Linv,
    forward_model fs hardware = Ok F /\
    electrode_names hardware = Ok names /\
    spatial_coherence fs hardware = Ok L /\
    inverse_spatial_coherence fs hardware = Ok Linv /\
    shape F = (1028, 14) /\
    shaped 1028 14 (values F) /\
    length names = 14 /\
    shape L = (1028, 1028) /\
    shaped 1028 1028 (values L) /\
    shape Linv = (1028, 1028) /\
    shaped 1028 1028 (values Linv) /\
    forall method inv_alpha inv_beta,
      valid_method method ->
      rpos inv_alpha = true ->
      exists M,
        inverse_model pinv fs hardware method inv_alpha inv_beta = Ok M /\
        shape M = (14, 1028) /\
        shaped 14 1028 (values M).
Proof.
  intros Hsup Hraw Hraws HK HKs HKinv HKinvs.
  apply (pipeline_shapes 1028 fs hardware raw K Kinv); try assumption.
  apply Nat.lt_0_succ.
Qed.

End Inverse.

(** ** Runs on concrete data directories *)

Lemma pinv_diag_shape (r c : nat) (a : ndarray (R := Q)) :
  0 < r -> shaped r c a -> shaped c r (pinv_diag a).
Proof.
  intros Hpos Ha. unfold pinv_diag, shaped.
  rewrite length_map, length_seq, (shaped_ncols r c a Hpos Ha).
  split; [reflexivity|].
  apply Forall_forall; intros row Hin.
  apply in_map_iff in Hin as [j [<- _]].
  rewrite length_map, length_seq. apply (shaped_nrows r c a Ha).
Qed.

Lemma not_supported_bogus : ~ supported "bogus".
Proof. intros [E | E]; discriminate E. Qed.

Lemma not_valid_method_bogus : ~ valid_method "bogus".
Proof. intros [E | E]; discriminate E. Qed.

(** The forward model of the two-vertex directory. *)
Definition forward_2 : Matrix (R := Q) :=
  forward_model_spec SBS2_ELECTRODES_EMOTIV (unit_table 14 2).

Definition coherence_2 : Matrix (R := Q) := mk_Matrix (unit_table 2 2).

(** C3 on the two-vertex directory. *)
Lemma forward_model_construction_unit_table :
  shaped 14 2 (unit_table 14 2) /\
  forward_model (sbs2_dir 2) "emotiv" = Ok forward_2 /\
  shape forward_2 = (2, 14).
Proof.
  assert (Hs : shaped 14 2 (unit_table 14 2))
    by (apply is_shape_shaped; reflexivity).
  destruct (forward_model_construction (sbs2_dir 2) "emotiv"
              SBS2_ELECTRODES_EMOTIV (unit_table 14 2) 2
              eq_refl eq_refl Hs) as [HF [Hshape _]].
  split; [exact Hs|]. split; [exact HF | exact Hshape].
Defined.

(** C4: an unknown hardware whose directory does not exist is reported as
    DataUnavailable, not as InvalidArgument; and a truncated table of a
    valid hardware is reported as a ValueError, not as DataUnavailable. *)
Lemma forward_model_bogus_unavailable :
  forward_model (sbs2_dir 2) "bogus" = Error DataUnavailable /\
  ~ supported "bogus" /\
  ~ InvalidArgument DataUnavailable /\
  supported "emotiv" /\
  forward_model (fun _ _ => Some (unit_table 13 2)) "emotiv"
  = Error (ValueError "Length mismatch") /\
  ValueError "Length mismatch" <> DataUnavailable.
Proof.
  split; [reflexivity|]. split; [exact not_supported_bogus|].
  split; [intros [msg E]; discriminate E|].
  split; [left; reflexivity|].
  split; [reflexivity | discriminate].
Qed.

(** C4 on the two-vertex directory, which has no emocap files. *)
Lemma forward_model_rejects_bogus :
  sbs2_dir 2 "emocap" forward_file = None /\
  forward_model (sbs2_dir 2) "bogus" = Error DataUnavailable /\
  forward_model (sbs2_dir 2) "emocap" = Error DataUnavailable.
Proof.
  destruct (forward_model_rejects (sbs2_dir 2) "bogus" "emocap"
              SBS2_ELECTRODES_EMOCAP not_supported_bogus eq_refl)
    as [Hbogus [_ Hemocap]].
  split; [reflexivity|]. split; [exact Hbogus | exact Hemocap].
Defined.

(** C2 on the two-vertex directory with the reference hyperparameters. *)
Lemma minimumnorm_formula_unit_table :
  exists names,
    electrode_names "emotiv" = Ok names /\
    inverse_model pinv_diag (sbs2_dir 2) "emotiv" "minimumnorm"
      inv_alpha_default inv_beta_default
    = Ok {| index := map Name names;
            columns := RangeIndex 2;
            values := minimumnorm_spec pinv_diag inv_alpha_default
                        inv_beta_default (values forward_2) |}.
Proof.
  apply (minimumnorm_formula pinv_diag pinv_diag_shape (sbs2_dir 2)
           "emotiv" inv_alpha_default inv_beta_default forward_2 2).
  - reflexivity.
  - lia.
  - apply is_shape_shaped. reflexivity.
  - reflexivity.
Defined.

(** C1 on the two-vertex directory with the reference hyperparameters. *)
Lemma LORETA_formula_unit_table :
  exists names,
    electrode_names "emotiv" = Ok names /\
    inverse_model pinv_diag (sbs2_dir 2) "emotiv" "LORETA"
      inv_alpha_default inv_beta_default
    = Ok {| index := map Name names;
            columns := RangeIndex 2;
            values := loreta_spec pinv_diag inv_alpha_default
                        inv_beta_default (values forward_2)
                        (values coherence_2) |}.
Proof.
  apply (LORETA_formula pinv_diag pinv_diag_shape (sbs2_dir 2)
           "emotiv" inv_alpha_default inv_beta_default
           forward_2 coherence_2 2).
  - reflexivity.
  - reflexivity.
  - lia.
  - apply is_shape_shaped. reflexivity.
  - apply is_shape_shaped. reflexivity.
Defined.

(** The LORETA operator of the two-vertex directory. *)
Definition loreta_2 : Matrix (R := Q) :=
  {| index := map Name SBS2_ELECTRODES_EMOTIV;
     columns := RangeIndex 2;
     values := loreta_spec pinv_diag inv_alpha_default inv_beta_default
                 (values forward_2) (values coherence_2) |}.

(** C6 on the two-vertex directory. *)
Lemma inverse_model_row_labels_unit_table :
  inverse_model pinv_diag (sbs2_dir 2) "emotiv" "LORETA"
    inv_alpha_default inv_beta_default = Ok loreta_2 /\
  exists names,
    electrode_names "emotiv" = Ok names /\ index loreta_2 = map Name names.
Proof.
  assert (HM : inverse_model pinv_diag (sbs2_dir 2) "emotiv" "LORETA"
                 inv_alpha_default inv_beta_default = Ok loreta_2)
    by (vm_compute; reflexivity).
  split; [exact HM|].
  exact (inverse_model_row_labels pinv_diag (sbs2_dir 2) "emotiv" "LORETA"
           inv_alpha_default inv_beta_default loreta_2 HM).
Defined.

(** C8 on the two-vertex directory: an unknown method, and the emocap
    directory that is missing. *)
Lemma inverse_model_errors_unit_table :
  inverse_model pinv_diag (sbs2_dir 2) "emotiv" "bogus"
    inv_alpha_default inv_beta_default
  = Error (ValueError "Wrong method").
Proof.
  destruct (inverse_model_errors pinv_diag (sbs2_dir 2) "emotiv" "bogus"
              inv_alpha_default inv_beta_default
              (or_introl eq_refl) not_valid_method_bogus)
    as [Hmethod _].
  apply (Hmethod forward_2). reflexivity.
Defined.

(** C10: the directory without coherence files gives the same
    minimum-norm operator. *)
Lemma minimumnorm_ignores_coherence_unit_table :
  sbs2_dir 2 "emotiv" coherence_file
  <> sbs2_dir_forward_only 2 "emotiv" coherence_file /\
  inverse_model pinv_diag (sbs2_dir 2) "emotiv" "minimumnorm"
    inv_alpha_default inv_beta_default
  = inverse_model pinv_diag (sbs2_dir_forward_only 2) "emotiv" "minimumnorm"
      inv_alpha_default inv_beta_default.
Proof.
  split; [discriminate|].
  apply (minimumnorm_ignores_coherence pinv_diag (sbs2_dir 2)
           (sbs2_dir_forward_only 2) "emotiv"
           inv_alpha_default inv_beta_default).
  reflexivity.
Defined.

(** C5 on a directory of the reference size. *)
Lemma reference_shapes_unit_table :
  exists M,
    inverse_model pinv_diag (sbs2_dir reference_sources) "emotiv"
      "minimumnorm" inv_alpha_default inv_beta_default = Ok M /\
    shape M = (14, 1028) /\
    shaped 14 1028 (values M).
Proof.
  assert (Hraw : shaped 14 1028 (unit_table 14 reference_sources))
    by (apply is_shape_shaped; vm_compute; reflexivity).
  assert (HK : shaped 1028 1028
                 (unit_table reference_sources reference_sources))
    by (apply is_shape_shaped; vm_compute; reflexivity).
  destruct (reference_shapes pinv_diag pinv_diag_shape
              (sbs2_dir reference_sources) "emotiv"
              (unit_table 14 reference_sources)
              (unit_table reference_sources reference_sources)
              (unit_table reference_sources reference_sources)
              (or_introl eq_refl) eq_refl Hraw eq_refl HK eq_refl HK)
    as [F [names [L [Linv [_ [_ [_ [_ [_ [_ [_ [_ [_ [_ [_ Hinv]]]]]]]]]]]]]]].
  apply Hinv.
  - left. reflexivity.
  - reflexivity.
Defined.

(** ** Further runs *)

(** alpha is used twice under LORETA: with F^T.F = 10^12 on the first two
    channels and L the identity, the entry is
    alpha * 10^6 / (alpha * 10^12 + beta). *)
Example loreta_2_entry :
  Qeq (entry (values loreta_2) 0 0)
      (inv_alpha_default * 1000000
       / (inv_alpha_default * 1000000000000 + inv_beta_default))%Q.
Proof. vm_compute. reflexivity. Qed.

(** The minimum-norm branch divides by alpha. *)
Example minimumnorm_alpha_zero :
  inverse_model pinv_diag (sbs2_dir 2) "emotiv" "minimumnorm"
    0%Q inv_beta_default = Error ZeroDivisionError.
Proof. reflexivity. Qed.

(** LORETA does not divide: alpha = 0 gives the zero operator. *)
Example LORETA_alpha_zero :
  is_ok (inverse_model pinv_diag (sbs2_dir 2) "emotiv" "LORETA"
           0%Q inv_beta_default) = true.
Proof. reflexivity. Qed.

(** A forward table that does not have one row per electrode is refused
    when the row labels are set. *)
Example forward_model_thirteen_rows :
  forward_model (fun _ _ => Some (unit_table 13 2)) "emotiv"
  = Error (ValueError "Length mismatch").
Proof. reflexivity. Qed.

(** When a forward table can be read under an unknown hardware name, the
    catalog rejects the name. *)
Example forward_model_bogus_with_table :
  forward_model (fun _ _ => Some (unit_table 14 2)) "bogus"
  = Error (ValueError "Wrong argument to model").
Proof. reflexivity. Qed.

(** A coherence matrix over another number of vertices than the forward
    model is refused by the first product. *)
Example LORETA_coherence_mismatch :
  inverse_model pinv_diag
    (fun _ file => if (file =? forward_file)%string
                   then Some (unit_table 14 2)
                   else Some (unit_table 3 3))
    "emotiv" "LORETA" inv_alpha_default inv_beta_default
  = Error (ValueError "shapes not aligned").
Proof. reflexivity. Qed.

(** * Beyond the specification: behaviour read off the code *)

(** ** When the forward model is returned, and how it fails *)

Section ForwardMore.
Context {R : Type} `{Scalar R}.

Lemma shaped_matmul_any (a b : ndarray (R := R)) :
  shaped (nrows a) (ncols b) (matmul a b).
Proof.
  unfold matmul, shaped, nrows. rewrite length_map. split; [reflexivity|].
  apply Forall_forall; intros row Hin.
  apply in_map_iff in Hin as [u [<- _]].
  now rewrite length_map, length_seq.
Qed.

Lemma shaped_transpose_any (a : ndarray (R := R)) :
  shaped (ncols a) (nrows a) (transpose a).
Proof.
  unfold transpose, shaped, nrows. rewrite length_map, length_seq.
  split; [reflexivity|].
  apply Forall_forall; intros row Hin.
  apply in_map_iff in Hin as [j [<- _]].
  apply length_column.
Qed.

Lemma forward_model_inv (fs : assets (R := R)) (hardware : string)
    (F : Matrix) :
  forward_model fs hardware = Ok F ->
  exists raw names,
    fs hardware forward_file = Some raw /\
    electrode_names hardware = Ok names /\
    nrows raw = 14 /\
    F = forward_model_spec names raw.
Proof.
  unfold forward_model, read_csv. intros HF.
  destruct (fs hardware forward_file) as [raw|] eqn:Hraw;
    cbn [bind] in HF; [|discriminate].
  destruct (electrode_names hardware) as [names | e] eqn:Hnames;
    cbn [bind] in HF; [|discriminate].
  destruct (electrode_names_ok_inv _ _ Hnames) as [_ Hlen].
  unfold set_index in HF. simpl index in HF.
  rewrite length_map, length_RangeIndex, Hlen in HF.
  destruct (14 =? nrows raw) eqn:E; cbn [bind] in HF; [|discriminate].
  apply Nat.eqb_eq in E. injection HF as <-.
  exists raw, names. repeat split; auto.
Qed.

(** X1.  [forward_model] returns exactly when the forward table can be
    read, the hardware is in the catalog and the table has 14 rows; what
    it returns is then the scaled, transposed, labelled table. *)
Theorem forward_model_ok_iff (fs : assets (R := R)) (hardware : string)
    (F : Matrix) :
  forward_model fs hardware = Ok F <->
  exists raw names,
    fs hardware forward_file = Some raw /\
    electrode_names hardware = Ok names /\
    nrows raw = 14 /\
    F = forward_model_spec names raw.
Proof.
  split.
  - apply forward_model_inv.
  - intros [raw [names [Hraw [Hnames [Hrows ->]]]]].
    now apply forward_model_ok.
Qed.

(** X2.  The three ways [forward_model] fails, first match first: the
    table cannot be read (DataUnavailable); it can, and the hardware is
    not in the catalog (ValueError of the catalog); it can, the hardware
    is known, and the table does not have 14 rows (ValueError of the
    relabelling). *)
Theorem forward_model_failure (fs : assets (R := R)) (hardware : string)
    (e : exn) :
  forward_model fs hardware = Error e ->
  (fs hardware forward_file = None /\ e = DataUnavailable) \/
  (exists raw, fs hardware forward_file = Some raw /\
     ~ supported hardware /\
     e = ValueError "Wrong argument to model") \/
  (exists raw, fs hardware forward_file = Some raw /\
     supported hardware /\ nrows raw <> 14 /\
     e = ValueError "Length mismatch").
Proof.
  unfold forward_model, read_csv. intros HF.
  destruct (fs hardware forward_file) as [raw|] eqn:Hraw; cbn [bind] in HF.
  2:{ left. split; [reflexivity | congruence]. }
  right.
  destruct (electrode_names hardware) as [names | e'] eqn:Hnames;
    cbn [bind] in HF.
  - right. exists raw.
    destruct (electrode_names_ok_inv _ _ Hnames) as [Hsup Hlen].
    unfold set_index in HF. simpl index in HF.
    rewrite length_map, length_RangeIndex, Hlen in HF.
    destruct (14 =? nrows raw) eqn:E; cbn [bind] in HF; [discriminate|].
    apply Nat.eqb_neq in E. injection HF as <-.
    repeat split; auto.
  - left. exists raw. split; [reflexivity|].
    assert (Hno : ~ supported hardware).
    { intros Hsup.
      destruct (electrode_names_supported _ Hsup) as [names [Hn _]].
      congruence. }
    split; [exact Hno|].
    rewrite (electrode_names_unsupported _ Hno) in Hnames. congruence.
Qed.

Lemma forward_model_values_shaped (fs : assets (R := R))
    (hardware : string) (F : Matrix) :
  forward_model fs hardware = Ok F ->
  shaped (nrows (values F)) 14 (values F) /\
  index F = RangeIndex (nrows (values F)) /\
  exists names,
    electrode_names hardware = Ok names /\ length names = 14 /\
    columns F = map Name names.
Proof.
  intros HF. apply forward_model_inv in HF
    as [raw [names [_ [Hnames [Hrows ->]]]]].
  destruct (electrode_names_ok_inv _ _ Hnames) as [_ Hlen].
  simpl values.
  pose proof (shaped_transpose_any (scale_r raw million)) as Ht.
  assert (Hr : nrows (scale_r raw million) = 14)
    by (unfold nrows, scale_r in *; now rewrite length_map).
  assert (Hn : nrows (transpose (scale_r raw million))
               = ncols (scale_r raw million))
    by apply Ht.
  assert (Hc : ncols (scale_r raw million) = ncols raw).
  { unfold ncols, scale_r. destruct raw as [|row raw]; simpl;
      [reflexivity | now rewrite length_map]. }
  rewrite Hr in Ht. rewrite Hn. split; [exact Ht|].
  split; [simpl; now rewrite Hc|].
  exists names. repeat split; auto.
Qed.

End ForwardMore.

(** ** When the inverse model is returned, and how it fails *)

Section InverseMore.
Context {R : Type} `{Scalar R}.
Variable pinv : ndarray (R := R) -> ndarray (R := R).
Hypothesis pinv_shape :
  forall (r c : nat) (a : ndarray), 0 < r -> shaped r c a -> shaped c r (pinv a).

Lemma minimumnorm_steps_nonzero (forward : ndarray (R := R)) (n c : nat)
    (inv_alpha inv_beta : R) :
  0 < n -> 0 < c -> shaped n c forward -> is_zero inv_alpha = false ->
  (gram <- dot (transpose forward) forward ;;
   ratio <- divide inv_beta inv_alpha ;;
   regularized <- add gram (scale ratio (eye (ncols forward))) ;;
   dot (pinv regularized) (transpose forward))
  = Ok (minimumnorm_spec pinv inv_alpha inv_beta forward) /\
  shaped c n (minimumnorm_spec pinv inv_alpha inv_beta forward).
Proof.
  intros Hn Hc HF Halpha.
  pose proof (shaped_transpose _ _ _ Hn HF) as HFt.
  pose proof (shaped_ncols _ _ _ Hn HF) as HFc.
  pose proof (shaped_ncols _ _ _ Hc HFt) as HFtc.
  assert (Hgram : shaped c c (matmul (transpose forward) forward))
    by (eapply shaped_matmul; eassumption).
  assert (Heye : shaped c c
            (scale (rdiv inv_beta inv_alpha) (eye (ncols forward)))).
  { apply shaped_scale. rewrite HFc. apply shaped_eye. }
  pose proof (shaped_mplus _ _ _ _ Hgram Heye) as Hreg.
  pose proof (pinv_shape _ _ _ Hc Hreg) as Hpinv.
  split.
  - rewrite dot_aligned
      by (rewrite HFtc; symmetry; apply (shaped_nrows _ _ _ HF)).
    cbn [bind]. unfold divide. rewrite Halpha. cbn [bind].
    rewrite (add_same_shape c c) by assumption.
    cbn [bind]. apply dot_aligned.
    rewrite (shaped_ncols _ _ _ Hc Hpinv).
    symmetry; apply (shaped_nrows _ _ _ HFt).
  - unfold minimumnorm_spec. eapply shaped_matmul; eassumption.
Qed.

Lemma minimumnorm_steps_zero (forward : ndarray (R := R)) (n c : nat)
    (inv_alpha inv_beta : R) :
  0 < c -> shaped n c forward -> is_zero inv_alpha = true ->
  (gram <- dot (transpose forward) forward ;;
   ratio <- divide inv_beta inv_alpha ;;
   regularized <- add gram (scale ratio (eye (ncols forward))) ;;
   dot (pinv regularized) (transpose forward))
  = Error ZeroDivisionError.
Proof.
  intros Hc HF Halpha.
  rewrite dot_aligned.
  - cbn [bind]. unfold divide. now rewrite Halpha.
  - destruct n as [|n].
    + destruct HF as [Hlen _]. destruct forward; [reflexivity|discriminate].
    + assert (Hn : 0 < S n) by lia.
      pose proof (shaped_transpose _ _ _ Hn HF) as HFt.
      rewrite (shaped_ncols _ _ _ Hc HFt).
      symmetry; apply (shaped_nrows _ _ _ HF).
Qed.

(** The LORETA steps ask of the coherence array only its number of rows
    and the length of its first row. *)
Lemma LORETA_steps_square (forward coherence : ndarray (R := R))
    (n c : nat) (inv_alpha inv_beta : R) :
  0 < n -> 0 < c -> shaped n c forward ->
  nrows coherence = n -> ncols coherence = n ->
  (forward_and_coherence <- dot coherence forward ;;
   gram <- dot (transpose forward) forward_and_coherence ;;
   sigma_inv <- add (scale inv_alpha gram)
                    (scale inv_beta (eye (ncols forward))) ;;
   product <- dot (pinv sigma_inv) (transpose forward_and_coherence) ;;
   Ok (scale inv_alpha product))
  = Ok (loreta_spec pinv inv_alpha inv_beta forward coherence) /\
  shaped c n (loreta_spec pinv inv_alpha inv_beta forward coherence).
Proof.
  intros Hn Hc HF HLr HLc.
  pose proof (shaped_transpose _ _ _ Hn HF) as HFt.
  pose proof (shaped_ncols _ _ _ Hn HF) as HFc.
  pose proof (shaped_ncols _ _ _ Hc HFt) as HFtc.
  pose proof (shaped_matmul_any coherence forward) as HFC.
  rewrite HLr, HFc in HFC.
  pose proof (shaped_transpose _ _ _ Hn HFC) as HFCt.
  assert (Hgram : shaped c c
            (matmul (transpose forward) (matmul coherence forward))).
  { eapply shaped_matmul; [eassumption|].
    apply (shaped_ncols _ _ _ Hn HFC). }
  assert (Heye : shaped c c (scale inv_beta (eye (ncols forward)))).
  { apply shaped_scale. rewrite HFc. apply shaped_eye. }
  pose proof (shaped_mplus _ _ _ _ (shaped_scale _ _ inv_alpha _ Hgram) Heye)
    as Hsig.
  pose proof (pinv_shape _ _ _ Hc Hsig) as Hpinv.
  split.
  - rewrite dot_aligned.
    2:{ rewrite HLc. symmetry; apply (shaped_nrows _ _ _ HF). }
    cbn [bind]. rewrite dot_aligned.
    2:{ rewrite HFtc. symmetry; apply (shaped_nrows _ _ _ HFC). }
    cbn [bind].
    rewrite (add_same_shape c c);
      [|assumption|apply shaped_scale; assumption|assumption].
    cbn [bind]. rewrite dot_aligned.
    2:{ rewrite (shaped_ncols _ _ _ Hc Hpinv).
        symmetry; apply (shaped_nrows _ _ _ HFCt). }
    reflexivity.
  - unfold loreta_spec. apply shaped_scale.
    eapply shaped_matmul; [eassumption|].
    apply (shaped_ncols _ _ _ Hc HFCt).
Qed.

Lemma LORETA_steps_misaligned (forward coherence : ndarray (R := R))
    (n c : nat) (inv_alpha inv_beta : R) :
  0 < n -> 0 < c -> shaped n c forward ->
  ~ (nrows coherence = n /\ ncols coherence = n) ->
  (forward_and_coherence <- dot coherence forward ;;
   gram <- dot (transpose forward) forward_and_coherence ;;
   sigma_inv <- add (scale inv_alpha gram)
                    (scale inv_beta (eye (ncols forward))) ;;
   product <- dot (pinv sigma_inv) (transpose forward_and_coherence) ;;
   Ok (scale inv_alpha product))
  = Error (ValueError "shapes not aligned").
Proof.
  intros Hn Hc HF Hbad.
  unfold dot at 1. rewrite (shaped_nrows _ _ _ HF).
  destruct (ncols coherence =? n) eqn:Ec; cbn [bind]; [|reflexivity].
  apply Nat.eqb_eq in Ec.
  pose proof (shaped_transpose _ _ _ Hn HF) as HFt.
  unfold dot at 1. rewrite (shaped_ncols _ _ _ Hc HFt).
  unfold nrows, matmul. rewrite length_map.
  destruct (n =? length coherence) eqn:Er; cbn [bind]; [|reflexivity].
  apply Nat.eqb_eq in Er. exfalso. apply Hbad. unfold nrows. auto.
Qed.

Lemma inverse_model_minimumnorm_cases (fs : assets) (hardware : string)
    (inv_alpha inv_beta : R) (F : Matrix) (names : list string) :
  forward_model fs hardware = Ok F ->
  electrode_names hardware = Ok names ->
  0 < nrows (values F) ->
  inverse_model pinv fs hardware "minimumnorm" inv_alpha inv_beta
  = if is_zero inv_alpha then Error ZeroDivisionError
    else Ok {| index := map Name names;
               columns := RangeIndex (nrows (values F));
               values := minimumnorm_spec pinv inv_alpha inv_beta
                           (values F) |}.
Proof.
  intros HF Hnames Hn.
  destruct (forward_model_values_shaped _ _ _ HF) as [Hshape _].
  destruct (electrode_names_ok_inv _ _ Hnames) as [_ Hlen].
  assert (Hc : 0 < 14) by lia.
  rewrite inverse_model_minimumnorm, HF. cbn [bind].
  destruct (is_zero inv_alpha) eqn:Hz.
  - now rewrite (minimumnorm_steps_zero (values F) _ 14 inv_alpha inv_beta
                   Hc Hshape Hz).
  - destruct (minimumnorm_steps_nonzero (values F) _ 14 inv_alpha inv_beta
                Hn Hc Hshape Hz) as [Hsteps Hout].
    rewrite Hsteps. cbn [bind]. rewrite Hnames. cbn [bind].
    apply (label_rows _ _ 14); assumption.
Qed.

Lemma inverse_model_LORETA_cases (fs : assets) (hardware : string)
    (inv_alpha inv_beta : R) (F L : Matrix) (names : list string) :
  forward_model fs hardware = Ok F ->
  spatial_coherence fs hardware = Ok L ->
  electrode_names hardware = Ok names ->
  0 < nrows (values F) ->
  inverse_model pinv fs hardware "LORETA" inv_alpha inv_beta
  = if (nrows (values L) =? nrows (values F))
       && (ncols (values L) =? nrows (values F))
    then Ok {| index := map Name names;
               columns := RangeIndex (nrows (values F));
               values := loreta_spec pinv inv_alpha inv_beta
                           (values F) (values L) |}
    else Error (ValueError "shapes not aligned").
Proof.
  intros HF HL Hnames Hn.
  destruct (forward_model_values_shaped _ _ _ HF) as [Hshape _].
  destruct (electrode_names_ok_inv _ _ Hnames) as [_ Hlen].
  assert (Hc : 0 < 14) by lia.
  rewrite inverse_model_LORETA, HF. cbn [bind]. rewrite HL. cbn [bind].
  destruct ((nrows (values L) =? nrows (values F))
            && (ncols (values L) =? nrows (values F))) eqn:Hsq.
  - apply andb_true_iff in Hsq as [Hr Hcl].
    apply Nat.eqb_eq in Hr. apply Nat.eqb_eq in Hcl.
    destruct (LORETA_steps_square (values F) (values L) _ 14
                inv_alpha inv_beta Hn Hc Hshape Hr Hcl) as [Hsteps Hout].
    rewrite Hsteps. cbn [bind]. rewrite Hnames. cbn [bind].
    apply (label_rows _ _ 14); assumption.
  - rewrite (LORETA_steps_misaligned (values F) (values L) _ 14
               inv_alpha inv_beta Hn Hc Hshape); [reflexivity|].
    intros [Hr Hcl]. rewrite Hr, Hcl, !Nat.eqb_refl in Hsq. discriminate.
Qed.

(** X3.  Under minimumnorm, with a forward model over at least one
    vertex, the only failure is alpha = 0, which raises
    ZeroDivisionError; every other alpha, negative ones included, gives
    the minimum-norm operator. *)
Theorem minimumnorm_fails_iff_alpha_zero (fs : assets) (hardware : string)
    (inv_alpha inv_beta : R) (F : Matrix) :
  forward_model fs hardware = Ok F ->
  0 < nrows (values F) ->
  exists names,
    electrode_names hardware = Ok names /\
    inverse_model pinv fs hardware "minimumnorm" inv_alpha inv_beta
    = if is_zero inv_alpha then Error ZeroDivisionError
      else Ok {| index := map Name names;
                 columns := RangeIndex (nrows (values F));
                 values := minimumnorm_spec pinv inv_alpha inv_beta
                             (values F) |}.
Proof.
  intros HF Hn.
  destruct (forward_model_ok_inv _ _ _ HF) as [names [Hnames _]].
  exists names. split; [assumption|].
  now apply inverse_model_minimumnorm_cases.
Qed.

(** X4.  Under LORETA, with a forward model over n > 0 vertices and a
    readable coherence table, the operator is returned exactly when the
    coherence table has n rows and n columns; any other table is refused
    by a matrix product with ValueError.  alpha = 0 is no failure here. *)
Theorem LORETA_needs_square_coherence (fs : assets) (hardware : string)
    (inv_alpha inv_beta : R) (F L : Matrix) :
  forward_model fs hardware = Ok F ->
  spatial_coherence fs hardware = Ok L ->
  0 < nrows (values F) ->
  exists names,
    electrode_names hardware = Ok names /\
    inverse_model pinv fs hardware "LORETA" inv_alpha inv_beta
    = if (nrows (values L) =? nrows (values F))
         && (ncols (values L) =? nrows (values F))
      then Ok {| index := map Name names;
                 columns := RangeIndex (nrows (values F));
                 values := loreta_spec pinv inv_alpha inv_beta
                             (values F) (values L) |}
      else Error (ValueError "shapes not aligned").
Proof.
  intros HF HL Hn.
  destruct (forward_model_ok_inv _ _ _ HF) as [names [Hnames _]].
  exists names. split; [assumption|].
  now apply inverse_model_LORETA_cases.
Qed.

(** X5.  [inverse_model] reads the forward table and the coherence table of
    the hardware it is given and nothing else: two directories that agree
    on these two files give the same outcome for every method and every
    hyperparameter.  In particular the stored inverse coherence table and
    the files of the other hardware are never used. *)
Theorem inverse_model_reads_two_files (fs1 fs2 : assets)
    (hardware method : string) (inv_alpha inv_beta : R) :
  fs1 hardware forward_file = fs2 hardware forward_file ->
  fs1 hardware coherence_file = fs2 hardware coherence_file ->
  inverse_model pinv fs1 hardware method inv_alpha inv_beta
  = inverse_model pinv fs2 hardware method inv_alpha inv_beta.
Proof.
  intros Hforward Hcoherence.
  unfold inverse_model, forward_model, spatial_coherence, read_csv.
  rewrite Hforward, Hcoherence. reflexivity.
Qed.

(** X6.  Whatever [inverse_model] returns for a forward model F over
    n > 0 vertices is a (14 x n) array whose column labels are the row
    labels of F, so it can be multiplied with F on either side. *)
Theorem inverse_model_conformable (fs : assets) (hardware method : string)
    (inv_alpha inv_beta : R) (F M : Matrix) :
  forward_model fs hardware = Ok F ->
  0 < nrows (values F) ->
  inverse_model pinv fs hardware method inv_alpha inv_beta = Ok M ->
  shaped 14 (nrows (values F)) (values M) /\
  shape M = (14, nrows (values F)) /\
  columns M = index F /\
  index M = columns F /\
  dot (values M) (values F) = Ok (matmul (values M) (values F)) /\
  dot (values F) (values M) = Ok (matmul (values F) (values M)).
Proof.
  intros HF Hn HM.
  destruct (forward_model_values_shaped _ _ _ HF)
    as [Hshape [Hindex [names [Hnames [Hlen Hcolumns]]]]].
  assert (Hc : 0 < 14) by lia.
  assert (Hvalues : shaped 14 (nrows (values F)) (values M) /\
                    index M = map Name names /\
                    columns M = RangeIndex (nrows (values F))).
  { destruct (String.eqb_spec method "minimumnorm") as [-> | Hmn].
    - rewrite (inverse_model_minimumnorm_cases _ _ _ _ _ _ HF Hnames Hn)
        in HM.
      destruct (is_zero inv_alpha) eqn:Hz; [discriminate|].
      injection HM as <-. simpl.
      split; [|split; reflexivity].
      apply (minimumnorm_steps_nonzero (values F) _ 14 inv_alpha inv_beta
               Hn Hc Hshape Hz).
    - destruct (String.eqb_spec method "LORETA") as [-> | Hlo].
      + destruct (spatial_coherence fs hardware) as [L | e] eqn:HL.
        2:{ rewrite inverse_model_LORETA, HF in HM. cbn [bind] in HM.
            rewrite HL in HM. discriminate. }
        rewrite (inverse_model_LORETA_cases _ _ _ _ _ _ _ HF HL Hnames Hn)
          in HM.
        destruct ((nrows (values L) =? nrows (values F))
                  && (ncols (values L) =? nrows (values F))) eqn:Hsq;
          [|discriminate].
        apply andb_true_iff in Hsq as [Hr Hcl].
        apply Nat.eqb_eq in Hr. apply Nat.eqb_eq in Hcl.
        injection HM as <-. simpl.
        split; [|split; reflexivity].
        apply (LORETA_steps_square (values F) (values L) _ 14
                 inv_alpha inv_beta Hn Hc Hshape Hr Hcl).
      + unfold inverse_model in HM. rewrite HF in HM. cbn [bind] in HM.
        apply String.eqb_neq in Hmn. apply String.eqb_neq in Hlo.
        rewrite Hmn, Hlo in HM. discriminate. }
  destruct Hvalues as [HMs [HMi HMc]].
  split; [exact HMs|]. split.
  { unfold shape. rewrite HMi, HMc.
    now rewrite length_map, length_RangeIndex, Hlen. }
  split; [congruence|]. split; [congruence|]. split.
  - apply dot_aligned. rewrite (shaped_ncols _ _ _ Hc HMs). reflexivity.
  - apply dot_aligned. rewrite (shaped_ncols _ _ _ Hn Hshape).
    symmetry. apply (shaped_nrows _ _ _ HMs).
Qed.

End InverseMore.

(** * The data directory on disk: make_dir, download, unpack *)

Module Disk.

(** A path is the list of its components, and a file system the set of
    paths that exist.  The process has a working directory.  The
    operations are those of os, os.path, tempfile, shutil and subprocess
    that sbs2.py calls. *)

Definition path : Type := list string.

(** os.path.join(p, name) *)
Definition join (p : path) (name : string) : path := (p ++ [name])%list.

(** [strip p q] is the rest of [q] below [p], when [q] is [p] or lies
    below it. *)
Fixpoint strip (p q : path) : option path :=
  match p, q with
  | [], _ => Some q
  | x :: p', y :: q' => if (x =? y)%string then strip p' q' else None
  | _ :: _, [] => None
  end.

Definition below (p q : path) : bool :=
  match strip p q with Some _ => true | None => false end.

Record world : Type := {
  cwd : path;
  present : path -> bool
}.

Inductive os_exn : Type :=
| OSError (what : string)
| IOError (what : string)
| ShutilError (what : string).

Inductive outcome (A : Type) : Type :=
| Done (a : A)
| Raise (e : os_exn).
Arguments Done {A} a.
Arguments Raise {A} e.

Definition io (A : Type) : Type := world -> outcome A * world.

Definition io_ret {A : Type} (a : A) : io A := fun w => (Done a, w).

Definition io_raise {A : Type} (e : os_exn) : io A := fun w => (Raise e, w).

Definition io_bind {A B : Type} (m : io A) (k : A -> io B) : io B :=
  fun w =>
    match m w with
    | (Done a, w') => k a w'
    | (Raise e, w') => (Raise e, w')
    end.

Notation "x <~ m ;; k" := (io_bind m (fun x => k))
  (at level 61, m at next level, right associativity).

(** try: body finally: cleanup *)
Definition try_finally {A : Type} (body : io A) (cleanup : io unit) : io A :=
  fun w =>
    let (r, w1) := body w in
    match cleanup w1 with
    | (Done _, w2) => (r, w2)
    | (Raise e, w2) => (Raise e, w2)
    end.

(** os.path.exists *)
Definition os_exists (p : path) : io bool := fun w => (Done (present w p), w).

Definition getcwd : io path := fun w => (Done (cwd w), w).

(** os.chdir: the directory must exist. *)
Definition chdir (p : path) : io unit :=
  fun w =>
    if present w p
    then (Done tt, {| cwd := p; present := present w |})
    else (Raise (OSError "No such file or directory"), w).

(** os.makedirs: creates the directory and its missing ancestors; refuses
    an existing one. *)
Definition makedirs (p : path) : io unit :=
  fun w =>
    if present w p then (Raise (OSError "File exists"), w)
    else (Done tt,
          {| cwd := cwd w;
             present := fun q => present w q || below q p |}).

(** tempfile.mkdtemp: [tmp] is the name the system picks. *)
Definition mkdtemp (tmp : path) : io path :=
  fun w =>
    (Done tmp,
     {| cwd := cwd w; present := fun q => present w q || below q tmp |}).

(** What running svn export can do. *)
Inductive svn_result : Type :=
| Exported (payload : path -> bool)
| ExitNonzero
| NotInstalled.

(** subprocess.call(['svn', 'export', SBS2_SVN_DIR]): on success the
    directory sbs2_data, holding the exported [payload], appears in the
    working directory; a failing svn only returns its status; a missing
    svn makes [call] raise. *)
Definition call_svn_export (svn : svn_result) : io nat :=
  fun w =>
    match svn with
    | Exported payload =>
        (Done 0,
         {| cwd := cwd w;
            present := fun q =>
              match strip (join (cwd w) "sbs2_data") q with
              | Some [] => true
              | Some rest => payload rest || present w q
              | None => present w q
              end |})
    | ExitNonzero => (Done 1, w)
    | NotInstalled => (Raise (OSError "No such file or directory"), w)
    end.

(** os.rename of a directory tree onto a name that is free. *)
Definition rename_tree (src dst : path) (w : world) : world :=
  {| cwd := cwd w;
     present := fun q =>
       match strip dst q with
       | Some rest => present w (src ++ rest)%list
       | None => if below src q then false else present w q
       end |}.

(** shutil.move(src, dst): into [dst] when it is an existing directory,
    refusing to overwrite; onto [dst] otherwise.  (All paths of the model
    are directories.) *)
Definition move (src dst : path) : io unit :=
  fun w =>
    let real_dst :=
      if present w dst then join dst (last src "") else dst in
    if present w dst && present w real_dst
    then (Raise (ShutilError "Destination path already exists"), w)
    else if present w src
    then (Done tt, rename_tree src real_dst w)
    else (Raise (IOError "No such file or directory"), w).

(** shutil.rmtree *)
Definition rmtree (p : path) : io unit :=
  fun w =>
    if present w p
    then (Done tt,
          {| cwd := cwd w;
             present := fun q => if below p q then false else present w q |})
    else (Raise (OSError "No such file or directory"), w).

(** The object: the two attributes [__init__] sets. *)
Record SBS2Data : Type := {
  data_dir : path;
  sbs2_dir : path
}.

Definition make_dir (self : SBS2Data) : io unit :=
  there <~ os_exists (sbs2_dir self) ;;
  if negb there then makedirs (sbs2_dir self) else io_ret tt.

Definition download (self : SBS2Data) (svn : svn_result) (tmp : path)
  : io unit :=
  _ <~ make_dir self ;;
  saved_dir <~ getcwd ;;
  temp_dir <~ mkdtemp tmp ;;
  _ <~ chdir temp_dir ;;
  _ <~ try_finally (call_svn_export svn) (chdir saved_dir) ;;
  _ <~ move (join temp_dir "sbs2_data") (sbs2_dir self) ;;
  rmtree temp_dir.

Definition unpack (self : SBS2Data) (redownload : bool)
    (svn : svn_result) (tmp : path) : io unit :=
  there <~ os_exists (sbs2_dir self) ;;
  data_there <~ os_exists (join (sbs2_dir self) "sbs2_data") ;;
  if redownload || negb there || negb data_there
  then download self svn tmp
  else io_ret tt.

(** SBS2Data(redownload); [configured] is the data directory of the
    configuration, expanded. *)
Definition SBS2Data_init (configured : path) (redownload : bool)
    (svn : svn_result) (tmp : path) : io SBS2Data :=
  let self := {| data_dir := configured;
                 sbs2_dir := join configured "sbs2" |} in
  _ <~ unpack self redownload svn tmp ;;
  io_ret self.

(** A home directory and nothing else. *)
Definition bare_world : world :=
  {| cwd := ["home"]; present := fun q => below q ["home"] |}.

Definition home_data : SBS2Data :=
  {| data_dir := ["home"; "data"]; sbs2_dir := ["home"; "data"; "sbs2"] |}.

Definition tmp_a : path := ["tmp"; "a"].
Definition tmp_b : path := ["tmp"; "b"].

(** An export that holds the emotiv forward table only. *)
Definition emotiv_payload : path -> bool :=
  fun q => below q ["hardware"; "emotiv"; "forwardmodel_spheres_reduced.txt"].

(** ** Paths *)

Lemma strip_app (p r : path) : strip p (p ++ r)%list = Some r.
Proof.
  induction p as [|x p IH]; simpl; [reflexivity|].
  now rewrite String.eqb_refl.
Qed.

Lemma strip_refl (p : path) : strip p p = Some [].
Proof.
  rewrite <- (app_nil_r p) at 2. apply strip_app.
Qed.

Lemma below_refl (p : path) : below p p = true.
Proof. unfold below. now rewrite strip_refl. Qed.

Lemma strip_some (p q r : path) : strip p q = Some r -> q = (p ++ r)%list.
Proof.
  revert q. induction p as [|x p IH]; intros q Hs; simpl in *.
  - congruence.
  - destruct q as [|y q]; [discriminate|].
    destruct (String.eqb_spec x y) as [-> | _]; [|discriminate].
    f_equal. now apply IH.
Qed.

Lemma strip_longer (p r : path) (x : string) :
  strip (p ++ x :: r)%list p = None.
Proof.
  induction p as [|y p IH]; simpl; [reflexivity|].
  now rewrite String.eqb_refl.
Qed.

Lemma below_app_l (p r q : path) :
  below (p ++ r)%list q = true -> below p q = true.
Proof.
  unfold below. revert q.
  induction p as [|x p IH]; intros q Hb; simpl in *; [reflexivity|].
  destruct q as [|y q]; [discriminate|].
  destruct (x =? y)%string; [|discriminate]. now apply IH.
Qed.

Lemma below_app_r (p q r : path) :
  below p (q ++ r)%list = true -> below p q = true \/ below q p = true.
Proof.
  unfold below. revert q.
  induction p as [|x p IH]; intros q Hb; simpl in *; [now left|].
  destruct q as [|y q]; simpl in *; [now right|].
  destruct (String.eqb_spec x y) as [-> | _]; [|discriminate].
  rewrite String.eqb_refl. now apply IH.
Qed.

Lemma below_app (p r : path) : below p (p ++ r)%list = true.
Proof. unfold below. now rewrite strip_app. Qed.

(** ** download and unpack *)

Ltac io_cases :=
  repeat match goal with
         | |- context [if ?b then _ else _] =>
             let E := fresh "E" in destruct b eqn:E; simpl
         end.


Lemma io_bind_eq {A B : Type} (m : io A) (k : A -> io B) (w w' : world)
    (a : A) :
  m w = (Done a, w') -> io_bind m k w = k a w'.
Proof. intros E. unfold io_bind. now rewrite E. Qed.

Lemma io_bind_raise {A B : Type} (m : io A) (k : A -> io B) (w w' : world)
    (e : os_exn) :
  m w = (Raise e, w') -> io_bind m k w = (Raise e, w').
Proof. intros E. unfold io_bind. now rewrite E. Qed.

(** What [make_dir] leaves: the directory exists, nothing else changed. *)
Lemma make_dir_facts (self : SBS2Data) (w : world) :
  exists w1,
    make_dir self w = (Done tt, w1) /\
    cwd w1 = cwd w /\
    present w1 (sbs2_dir self) = true /\
    (forall q, present w q = true -> present w1 q = true) /\
    (forall q, below q (sbs2_dir self) = false -> present w1 q = present w q).
Proof.
  unfold make_dir, io_bind, os_exists, makedirs, io_ret.
  destruct (present w (sbs2_dir self)) eqn:Hdir; simpl.
  - exists w. repeat split; auto.
  - rewrite Hdir. eexists. split; [reflexivity|]. simpl.
    repeat split.
    + now rewrite below_refl, orb_true_r.
    + intros q Hq. now rewrite Hq.
    + intros q Hq. now rewrite Hq, orb_false_r.
Qed.

(** The svn call between the two chdir. *)
Lemma svn_block_facts (svn : svn_result) (saved tmp : path) (w : world) :
  present w saved = true ->
  cwd w = tmp ->
  exists r w',
    try_finally (call_svn_export svn) (chdir saved) w = (r, w') /\
    cwd w' = saved /\
    (forall q, present w q = true -> present w' q = true) /\
    match svn with
    | Exported payload =>
        r = Done 0 /\
        forall q, present w' q
                  = match strip (join tmp "sbs2_data") q with
                    | Some [] => true
                    | Some rest => payload rest || present w q
                    | None => present w q
                    end
    | ExitNonzero => r = Done 1 /\ forall q, present w' q = present w q
    | NotInstalled =>
        r = Raise (OSError "No such file or directory") /\
        forall q, present w' q = present w q
    end.
Proof.
  intros Hsaved Hcwd. unfold try_finally, call_svn_export, chdir.
  destruct svn as [payload | |]; simpl.
  - assert (Hs : match strip (join (cwd w) "sbs2_data") saved with
                 | Some [] => true
                 | Some ((_ :: _) as rest) => payload rest || present w saved
                 | None => present w saved
                 end = true).
    { destruct (strip (join (cwd w) "sbs2_data") saved) as [[|x rest]|];
        rewrite ?Hsaved, ?orb_true_r; reflexivity. }
    rewrite Hs. eexists _, _. split; [reflexivity|]. simpl.
    rewrite Hcwd. repeat split; auto.
    intros q Hq.
    destruct (strip (join tmp "sbs2_data") q) as [[|x rest]|];
      rewrite ?Hq, ?orb_true_r; reflexivity.
  - rewrite Hsaved. eexists _, _. split; [reflexivity|]. simpl.
    repeat split; auto.
  - rewrite Hsaved. eexists _, _. split; [reflexivity|]. simpl.
    repeat split; auto.
Qed.

Lemma move_keeps_cwd (src dst : path) (w : world) :
  cwd (snd (move src dst w)) = cwd w.
Proof. unfold move. io_cases; reflexivity. Qed.

Lemma rmtree_keeps_cwd (p : path) (w : world) :
  cwd (snd (rmtree p w)) = cwd w.
Proof. unfold rmtree. io_cases; reflexivity. Qed.

(** [download], cut at the svn call: what precedes the move. *)
Lemma download_until_move (self : SBS2Data) (svn : svn_result)
    (tmp : path) (w : world) :
  present w (cwd w) = true ->
  exists r w',
    download self svn tmp w
    = match r with
      | Done _ =>
          io_bind (move (join tmp "sbs2_data") (sbs2_dir self))
                  (fun _ => rmtree tmp) w'
      | Raise e => (Raise e, w')
      end /\
    cwd w' = cwd w /\
    present w' (sbs2_dir self) = true /\
    present w' tmp = true /\
    (forall q, present w q = true -> present w' q = true) /\
    match svn with
    | Exported payload =>
        r = Done 0 /\
        forall q, present w' q
                  = match strip (join tmp "sbs2_data") q with
                    | Some [] => true
                    | Some rest =>
                        payload rest
                        || (present (snd (make_dir self w)) q || below q tmp)
                    | None => present (snd (make_dir self w)) q || below q tmp
                    end
    | ExitNonzero =>
        r = Done 1 /\
        forall q, present w' q
                  = present (snd (make_dir self w)) q || below q tmp
    | NotInstalled =>
        r = Raise (OSError "No such file or directory") /\
        forall q, present w' q
                  = present (snd (make_dir self w)) q || below q tmp
    end.
Proof.
  intros Hcwd.
  destruct (make_dir_facts self w) as [w1 [E1 [C1 [D1 [G1 _]]]]].
  unfold download. rewrite (io_bind_eq _ _ _ _ _ E1).
  rewrite E1. simpl snd.
  unfold io_bind at 1, getcwd at 1. unfold io_bind at 1, mkdtemp at 1.
  unfold io_bind at 1, chdir at 1. simpl present.
  rewrite below_refl, orb_true_r.
  set (w3 := {| cwd := tmp;
                present := fun q => present w1 q || below q tmp |}).
  assert (Hsaved : present w3 (cwd w1) = true).
  { simpl. rewrite C1, (G1 _ Hcwd). reflexivity. }
  destruct (svn_block_facts svn (cwd w1) tmp w3 Hsaved eq_refl)
    as [r [w' [E [C [G S]]]]].
  exists r, w'. split.
  { unfold io_bind at 1. rewrite E. destruct r; reflexivity. }
  split; [congruence|].
  split; [apply G; simpl; now rewrite D1|].
  split; [apply G; simpl; now rewrite below_refl, orb_true_r|].
  split; [intros q Hq; apply G; simpl; now rewrite (G1 _ Hq)|].
  exact S.
Qed.

(** X7.  [download] leaves the process in the working directory it was
    started in, whatever svn does: also when svn is missing and [call]
    raises, and when the move that follows fails. *)
Theorem download_restores_cwd (self : SBS2Data) (svn : svn_result)
    (tmp : path) (w : world) :
  present w (cwd w) = true ->
  cwd (snd (download self svn tmp w)) = cwd w.
Proof.
  intros Hcwd.
  destruct (download_until_move self svn tmp w Hcwd)
    as [r [w' [E [C _]]]].
  rewrite E. destruct r as [status | e]; [|exact C].
  unfold io_bind.
  pose proof (move_keeps_cwd (join tmp "sbs2_data") (sbs2_dir self) w') as Hm.
  destruct (move (join tmp "sbs2_data") (sbs2_dir self) w') as [[u | e] w2];
    simpl in *; [|congruence].
  rewrite rmtree_keeps_cwd. congruence.
Qed.

Lemma below_app_trans (p q r : path) :
  below p q = true -> below p (q ++ r)%list = true.
Proof.
  unfold below. destruct (strip p q) as [rest|] eqn:E; [|discriminate].
  intros _. apply strip_some in E. subst q.
  now rewrite <- app_assoc, strip_app.
Qed.

Lemma below_longer (p r : path) (x : string) :
  below (p ++ x :: r)%list p = false.
Proof. unfold below. now rewrite strip_longer. Qed.

Lemma basename_join (p : path) (name : string) :
  last (join p name) "" = name.
Proof. unfold join. apply last_last. Qed.

(** The move of [download], when the data directory exists. *)
Lemma move_into_sbs2_dir (self : SBS2Data) (tmp : path) (w : world) :
  present w (sbs2_dir self) = true ->
  move (join tmp "sbs2_data") (sbs2_dir self) w
  = if present w (join (sbs2_dir self) "sbs2_data")
    then (Raise (ShutilError "Destination path already exists"), w)
    else if present w (join tmp "sbs2_data")
    then (Done tt,
          rename_tree (join tmp "sbs2_data")
            (join (sbs2_dir self) "sbs2_data") w)
    else (Raise (IOError "No such file or directory"), w).
Proof.
  intros Hdir. unfold move. rewrite Hdir, basename_join. reflexivity.
Qed.

Lemma unpack_eq (self : SBS2Data) (redownload : bool) (svn : svn_result)
    (tmp : path) (w : world) :
  unpack self redownload svn tmp w
  = if redownload || negb (present w (sbs2_dir self))
       || negb (present w (join (sbs2_dir self) "sbs2_data"))
    then download self svn tmp w
    else (Done tt, w).
Proof.
  unfold unpack, io_bind, os_exists, io_ret.
  destruct (redownload || negb (present w (sbs2_dir self))
            || negb (present w (join (sbs2_dir self) "sbs2_data")));
    reflexivity.
Qed.

Lemma unpack_done_facts (self : SBS2Data) (redownload : bool)
    (svn : svn_result) (tmp : path) (w : world) :
  present w (cwd w) = true ->
  below tmp (join (sbs2_dir self) "sbs2_data") = false ->
  fst (unpack self redownload svn tmp w) = Done tt ->
  present (snd (unpack self redownload svn tmp w)) (sbs2_dir self) = true /\
  present (snd (unpack self redownload svn tmp w))
    (join (sbs2_dir self) "sbs2_data") = true.
Proof.
  intros Hcwd Htmp. rewrite unpack_eq.
  destruct (redownload || negb (present w (sbs2_dir self))
            || negb (present w (join (sbs2_dir self) "sbs2_data")))
    eqn:Hcond.
  2:{ intros _. simpl.
      apply orb_false_iff in Hcond as [Hcond Hdata].
      apply orb_false_iff in Hcond as [_ Hdir].
      apply negb_false_iff in Hdir. apply negb_false_iff in Hdata. auto. }
  destruct (download_until_move self svn tmp w Hcwd)
    as [r [w' [E [_ [Hdir [Htmpdir _]]]]]].
  rewrite E. destruct r as [status | e]; [|discriminate].
  unfold io_bind. rewrite (move_into_sbs2_dir self tmp w' Hdir).
  destruct (present w' (join (sbs2_dir self) "sbs2_data")); [discriminate|].
  destruct (present w' (join tmp "sbs2_data")) eqn:Hsrc; [|discriminate].
  unfold rmtree.
  match goal with
  | |- context [if ?b then _ else _] => destruct b; [|discriminate]
  end.
  intros _. simpl.
  assert (Htmp' : below tmp (sbs2_dir self) = false).
  { destruct (below tmp (sbs2_dir self)) eqn:Hb; [|reflexivity].
    unfold join in Htmp. now rewrite (below_app_trans _ _ _ Hb) in Htmp. }
  rewrite Htmp, Htmp'. unfold join at 1 3.
  rewrite strip_longer, strip_refl, app_nil_r, Hsrc.
  split; [|reflexivity].
  destruct (below (tmp ++ ["sbs2_data"])%list (sbs2_dir self)) eqn:Hb;
    [|exact Hdir].
  apply below_app_l in Hb. congruence.
Qed.

(** X8.  When [unpack] returns, the directory sbs2 and its sub-directory
    sbs2_data exist, and a further unpack() finds them and does nothing:
    no download, no change on disk. *)
Theorem unpack_idempotent (self : SBS2Data) (redownload : bool)
    (svn svn' : svn_result) (tmp tmp' : path) (w : world) :
  present w (cwd w) = true ->
  below tmp (join (sbs2_dir self) "sbs2_data") = false ->
  fst (unpack self redownload svn tmp w) = Done tt ->
  present (snd (unpack self redownload svn tmp w)) (sbs2_dir self) = true /\
  present (snd (unpack self redownload svn tmp w))
    (join (sbs2_dir self) "sbs2_data") = true /\
  unpack self false svn' tmp' (snd (unpack self redownload svn tmp w))
  = (Done tt, snd (unpack self redownload svn tmp w)).
Proof.
  intros Hcwd Htmp Hdone.
  destruct (unpack_done_facts self redownload svn tmp w Hcwd Htmp Hdone)
    as [Hdir Hdata].
  split; [exact Hdir|]. split; [exact Hdata|].
  rewrite unpack_eq, Hdir, Hdata. reflexivity.
Qed.

(** X9.  unpack(redownload=True) cannot succeed once the data is there:
    the export is made, but the move refuses to overwrite
    sbs2/sbs2_data.  The old data stays, and the temporary directory is
    left on disk. *)
Theorem redownload_fails_when_unpacked (self : SBS2Data)
    (svn : svn_result) (tmp : path) (w : world) :
  present w (cwd w) = true ->
  present w (sbs2_dir self) = true ->
  present w (join (sbs2_dir self) "sbs2_data") = true ->
  fst (unpack self true svn tmp w)
  = Raise match svn with
          | NotInstalled => OSError "No such file or directory"
          | _ => ShutilError "Destination path already exists"
          end /\
  present (snd (unpack self true svn tmp w)) tmp = true /\
  cwd (snd (unpack self true svn tmp w)) = cwd w /\
  forall q, present w q = true ->
            present (snd (unpack self true svn tmp w)) q = true.
Proof.
  intros Hcwd Hdir Hdata. rewrite unpack_eq. simpl orb. cbv iota.
  destruct (download_until_move self svn tmp w Hcwd)
    as [r [w' [E [C [Hdir' [Htmp [G S]]]]]]].
  rewrite E.
  assert (Hmove : io_bind (move (join tmp "sbs2_data") (sbs2_dir self))
                    (fun _ => rmtree tmp) w'
                  = (Raise (ShutilError "Destination path already exists"),
                     w')).
  { unfold io_bind. rewrite (move_into_sbs2_dir self tmp w' Hdir').
    now rewrite (G _ Hdata). }
  destruct svn as [payload | |]; destruct S as [-> _];
    rewrite ?Hmove; simpl; auto.
Qed.

Lemma below_false_strip (p q : path) : below p q = false -> strip p q = None.
Proof. unfold below. destruct (strip p q); [discriminate | reflexivity]. Qed.

Lemma below_app_l_false (p r q : path) :
  below p q = false -> below (p ++ r)%list q = false.
Proof.
  intros Hb. destruct (below (p ++ r)%list q) eqn:E; [|reflexivity].
  apply below_app_l in E. congruence.
Qed.

(** X10.  The first unpack, with a working svn: the export is moved to
    sbs2/sbs2_data, so that what svn delivered as [rest] is found at
    sbs2/sbs2_data/[rest], which is where the readers look for
    hardware/<hardware>/<file>; the temporary directory is removed and
    the working directory is as before. *)
Theorem first_unpack_layout (self : SBS2Data) (redownload : bool)
    (payload : path -> bool) (tmp : path) (w : world) :
  present w (cwd w) = true ->
  (forall q, below tmp q = true -> present w q = false) ->
  below tmp (join (sbs2_dir self) "sbs2_data") = false ->
  below (sbs2_dir self) tmp = false ->
  present w (join (sbs2_dir self) "sbs2_data") = false ->
  fst (unpack self redownload (Exported payload) tmp w) = Done tt /\
  (forall rest,
     present (snd (unpack self redownload (Exported payload) tmp w))
       (join (sbs2_dir self) "sbs2_data" ++ rest)%list
     = match rest with [] => true | _ => payload rest end) /\
  present (snd (unpack self redownload (Exported payload) tmp w)) tmp
  = false /\
  cwd (snd (unpack self redownload (Exported payload) tmp w)) = cwd w.
Proof.
  intros Hcwd Hfresh Htmp Hin Hdata.
  rewrite unpack_eq, Hdata. simpl negb. rewrite orb_true_r.
  destruct (download_until_move self (Exported payload) tmp w Hcwd)
    as [r [w' [E [C [Hdir [Htmpdir [_ [-> S]]]]]]]].
  destruct (make_dir_facts self w) as [w1 [E1 [_ [_ [_ Hsame]]]]].
  rewrite E1 in S. simpl snd in S.
  rewrite E. unfold io_bind.
  rewrite (move_into_sbs2_dir self tmp w' Hdir).
  set (src := join tmp "sbs2_data") in *.
  set (dst := join (sbs2_dir self) "sbs2_data") in *.
  assert (Hsd : strip src dst = None)
    by (apply below_false_strip, below_app_l_false, Htmp).
  assert (Hdt : below dst tmp = false)
    by (apply below_app_l_false, Hin).
  assert (Hst : below src tmp = false) by apply below_longer.
  assert (Hdst : present w' dst = false).
  { rewrite S, Hsd, Hdt, orb_false_r.
    rewrite Hsame by apply below_longer. exact Hdata. }
  assert (Hsrc : present w' src = true) by (now rewrite S, strip_refl).
  rewrite Hdst, Hsrc. unfold rmtree, rename_tree. simpl.
  rewrite (below_false_strip _ _ Hdt), Hst, Htmpdir. simpl.
  rewrite below_refl. split; [reflexivity|].
  split; [|split; [reflexivity | exact C]].
  intros rest. rewrite strip_app.
  assert (Hb : below tmp (dst ++ rest)%list = false).
  { destruct (below tmp (dst ++ rest)%list) eqn:Hb; [|reflexivity].
    apply below_app_r in Hb as [Hb | Hb]; congruence. }
  rewrite Hb, S, strip_app.
  destruct rest as [|x rest]; [reflexivity|].
  assert (Hunder : below tmp (src ++ x :: rest)%list = true).
  { unfold src, join. rewrite <- app_assoc. apply below_app. }
  assert (Hlong : below (src ++ x :: rest)%list tmp = false).
  { unfold src, join. rewrite <- app_assoc. apply below_longer. }
  rewrite Hlong, orb_false_r, Hsame.
  - now rewrite (Hfresh _ Hunder), orb_false_r.
  - destruct (below (src ++ x :: rest)%list (sbs2_dir self)) eqn:Hb';
      [|reflexivity].
    apply below_app_l in Hb'. unfold src, join in Hb'.
    apply below_app_l in Hb'.
    assert (below tmp dst = true)
      by (unfold dst, join; now apply below_app_trans).
    congruence.
Qed.

(** X11.  The exit status of svn is not looked at: when svn fails and
    exports nothing, [unpack] goes on to the move, which raises IOError
    for the missing export.  The directory sbs2 has been created and is
    left without sbs2_data, so the next unpack() downloads again. *)
Theorem unpack_svn_failed (self : SBS2Data) (redownload : bool)
    (tmp : path) (w : world) :
  present w (cwd w) = true ->
  (forall q, below tmp q = true -> present w q = false) ->
  below tmp (join (sbs2_dir self) "sbs2_data") = false ->
  below (sbs2_dir self) tmp = false ->
  present w (join (sbs2_dir self) "sbs2_data") = false ->
  fst (unpack self redownload ExitNonzero tmp w)
  = Raise (IOError "No such file or directory") /\
  present (snd (unpack self redownload ExitNonzero tmp w)) (sbs2_dir self)
  = true /\
  present (snd (unpack self redownload ExitNonzero tmp w))
    (join (sbs2_dir self) "sbs2_data") = false.
Proof.
  intros Hcwd Hfresh Htmp Hin Hdata.
  rewrite unpack_eq, Hdata. simpl negb. rewrite orb_true_r.
  destruct (download_until_move self ExitNonzero tmp w Hcwd)
    as [r [w' [E [C [Hdir [Htmpdir [_ [-> S]]]]]]]].
  destruct (make_dir_facts self w) as [w1 [E1 [_ [_ [_ Hsame]]]]].
  rewrite E1 in S. simpl snd in S.
  rewrite E. unfold io_bind.
  rewrite (move_into_sbs2_dir self tmp w' Hdir).
  set (src := join tmp "sbs2_data") in *.
  set (dst := join (sbs2_dir self) "sbs2_data") in *.
  assert (Hdst : present w' dst = false).
  { rewrite S, Hsame by apply below_longer.
    rewrite Hdata. simpl. apply below_app_l_false, Hin. }
  assert (Hsrc : present w' src = false).
  { rewrite S. unfold src at 2, join. rewrite below_longer, orb_false_r.
    rewrite Hsame.
    - apply Hfresh, below_app.
    - destruct (below src (sbs2_dir self)) eqn:Hb; [|reflexivity].
      apply below_app_l in Hb.
      assert (below tmp dst = true)
        by (unfold dst, join; now apply below_app_trans).
      congruence. }
  rewrite Hdst, Hsrc. simpl. auto.
Qed.

(** X15.  An SBS2Data object that has been constructed has its data on
    disk, under <data_dir>/sbs2/sbs2_data; constructing a second one over
    the same configuration then gives the same object and leaves the disk
    alone. *)
Theorem SBS2Data_init_once (configured : path) (redownload : bool)
    (svn svn' : svn_result) (tmp tmp' : path) (w : world)
    (self : SBS2Data) :
  present w (cwd w) = true ->
  below tmp (join (join configured "sbs2") "sbs2_data") = false ->
  fst (SBS2Data_init configured redownload svn tmp w) = Done self ->
  data_dir self = configured /\
  sbs2_dir self = join configured "sbs2" /\
  present (snd (SBS2Data_init configured redownload svn tmp w))
    (join (sbs2_dir self) "sbs2_data") = true /\
  SBS2Data_init configured false svn' tmp'
    (snd (SBS2Data_init configured redownload svn tmp w))
  = (Done self, snd (SBS2Data_init configured redownload svn tmp w)).
Proof.
  intros Hcwd Htmp.
  pose proof (unpack_done_facts
                {| data_dir := configured;
                   sbs2_dir := join configured "sbs2" |}
                redownload svn tmp w Hcwd Htmp) as Hfacts.
  unfold SBS2Data_init, io_bind, io_ret.
  destruct (unpack _ redownload svn tmp w) as [[[] | e] w1];
    simpl in *; [|discriminate].
  intros [= <-]. destruct (Hfacts eq_refl) as [Hdir Hdata].
  repeat split; [exact Hdata|].
  rewrite unpack_eq. simpl. now rewrite Hdir, Hdata.
Qed.

(** ** Runs on a bare home directory *)

Lemma tmp_a_fresh (q : path) :
  below tmp_a q = true -> present bare_world q = false.
Proof.
  intros Hq. destruct q as [|x q]; [discriminate Hq|].
  unfold below, tmp_a in Hq. cbn [strip] in Hq.
  destruct (String.eqb_spec "tmp" x) as [<- | _];
    [reflexivity | discriminate Hq].
Qed.

(** The disk after the first unpack. *)
Definition unpacked_world : world :=
  snd (unpack home_data false (Exported emotiv_payload) tmp_a bare_world).

(** X7 when svn is not installed. *)
Lemma download_restores_cwd_without_svn :
  cwd (snd (download home_data NotInstalled tmp_a bare_world)) = ["home"].
Proof.
  exact (download_restores_cwd home_data NotInstalled tmp_a bare_world
           eq_refl).
Defined.

(** X8 on the bare home directory. *)
Lemma unpack_idempotent_home :
  unpack home_data false NotInstalled tmp_b unpacked_world
  = (Done tt, unpacked_world).
Proof.
  exact (proj2 (proj2
           (unpack_idempotent home_data false (Exported emotiv_payload)
              NotInstalled tmp_a tmp_b bare_world
              eq_refl eq_refl eq_refl))).
Defined.

(** X9 on the unpacked home directory. *)
Lemma redownload_fails_home :
  fst (unpack home_data true (Exported emotiv_payload) tmp_b unpacked_world)
  = Raise (ShutilError "Destination path already exists") /\
  present
    (snd (unpack home_data true (Exported emotiv_payload) tmp_b
            unpacked_world))
    tmp_b = true.
Proof.
  destruct (redownload_fails_when_unpacked home_data
              (Exported emotiv_payload) tmp_b unpacked_world
              eq_refl eq_refl eq_refl) as [Hraise [Hleft _]].
  split; [exact Hraise | exact Hleft].
Defined.

(** X10 on the bare home directory: the forward table of emotiv is where
    [forward_model] reads it. *)
Lemma first_unpack_layout_home :
  fst (unpack home_data false (Exported emotiv_payload) tmp_a bare_world)
  = Done tt /\
  present unpacked_world
    ["home"; "data"; "sbs2"; "sbs2_data"; "hardware"; "emotiv";
     "forwardmodel_spheres_reduced.txt"] = true /\
  present unpacked_world tmp_a = false.
Proof.
  destruct (first_unpack_layout home_data false emotiv_payload tmp_a
              bare_world eq_refl tmp_a_fresh eq_refl eq_refl eq_refl)
    as [Hdone [Hlayout [Htmp _]]].
  split; [exact Hdone|]. split; [|exact Htmp].
  exact (Hlayout ["hardware"; "emotiv"; "forwardmodel_spheres_reduced.txt"]).
Defined.

(** X15 on the bare home directory. *)
Lemma SBS2Data_init_once_home :
  SBS2Data_init ["home"; "data"] false NotInstalled tmp_b unpacked_world
  = (Done home_data, unpacked_world).
Proof.
  exact (proj2 (proj2 (proj2
           (SBS2Data_init_once ["home"; "data"] false
              (Exported emotiv_payload) NotInstalled tmp_a tmp_b bare_world
              home_data eq_refl eq_refl eq_refl)))).
Defined.

(** X11 on the bare home directory. *)
Lemma unpack_svn_failed_home :
  fst (unpack home_data false ExitNonzero tmp_a bare_world)
  = Raise (IOError "No such file or directory").
Proof.
  exact (proj1 (unpack_svn_failed home_data false tmp_a bare_world
                  eq_refl tmp_a_fresh eq_refl eq_refl eq_refl)).
Defined.

End Disk.

(** * The surface and the command line: surface, main *)

Module Script.

(** The options docopt hands to [main]. *)
Record Args : Type := {
  arg_model : string;
  arg_coloring : string;
  arg_hardware : string;
  arg_electrode : string
}.

(** What [main] can end in besides the exceptions of the data methods:
    a label that is not on the axis, and sys.exit with a message. *)
Inductive raised : Type :=
| Uncaught (e : exn)
| KeyError (key : string)
| SystemExit (msg : string).

Inductive ran (A : Type) : Type :=
| Returns (a : A)
| Raises (e : raised).
Arguments Returns {A} a.
Arguments Raises {A} e.

Definition lift {A : Type} (m : result A) : ran A :=
  match m with
  | Ok a => Returns a
  | Error e => Raises (Uncaught e)
  end.

Definition ran_bind {A B : Type} (m : ran A) (k : A -> ran B) : ran B :=
  match m with
  | Returns a => k a
  | Raises e => Raises e
  end.

Notation "x <~ m ;; k" := (ran_bind m (fun x => k))
  (at level 61, m at next level, right associativity).

(** The place of the first label [Name key] on an axis. *)
Fixpoint position (key : string) (labels : list label) : option nat :=
  match labels with
  | [] => None
  | Name s :: rest =>
      if (s =? key)%string then Some 0 else option_map S (position key rest)
  | Pos _ :: rest => option_map S (position key rest)
  end.

Definition small_obj : string := "vertface_brain_reduced.obj".
Definition large_obj : string := "mesh_ctx_5124_normals.obj".

Section Main.
Context {R : Type} `{Scalar R}.
Variable pinv : ndarray (R := R) -> ndarray (R := R).

(** brede.surface is not among the sources: a surface is any value
    [read_obj] returns, and assigning its vertex_values is a function on
    it.  [read_obj file] is the surface parsed from sbs2_data/<file>, or
    [None] when the file cannot be read. *)
Variable Surface : Type.
Variable read_obj : string -> option Surface.
Variable set_vertex_values : Surface -> list R -> Surface.

(** The defaults of [inverse_model], 0.01 and 0.3781. *)
Variable inv_alpha_0 inv_beta_0 : R.

(** matrix.ix[:, key].values, on an axis whose labels are distinct *)
Definition ix_column (matrix : Matrix) (key : string) : ran (list R) :=
  match position key (columns matrix) with
  | Some j => Returns (column j (values matrix))
  | None => Raises (KeyError key)
  end.

(** matrix.ix[key, :].values *)
Definition ix_row (matrix : Matrix) (key : string) : ran (list R) :=
  match position key (index matrix) with
  | Some i => Returns (nth i (values matrix) [])
  | None => Raises (KeyError key)
  end.

Definition surface (model : string) : result Surface :=
  filename <-
    (if (model =? "small")%string then Ok small_obj
     else if (model =? "large")%string then Ok large_obj
     else Error (ValueError "model should be small or large")) ;;
  match read_obj filename with
  | Some s => Ok s
  | None => Error DataUnavailable
  end.

(** The body of [main] after its first statement, sbs2_data = SBS2Data(),
    has returned, and up to the plot: the surface that is shown.  The
    constructor has then left the data on disk, and the unpack() each
    method starts with finds it and does nothing.  [Program.run_main]
    below is [main] from its first statement. *)
Definition main (fs : assets) (args : Args) : ran Surface :=
  if negb (arg_model args =? "small")%string
     && negb (arg_coloring args =? "z")%string
  then Raises (SystemExit
         "Different coloring than z only supported for small model")
  else
    shown <~ lift (surface (arg_model args)) ;;
    if negb (arg_coloring args =? "z")%string then
      vertex_values <~
        (if (arg_coloring args =? "forward")%string then
           matrix <~ lift (forward_model fs (arg_hardware args)) ;;
           ix_column matrix (arg_electrode args)
         else if (arg_coloring args =? "inverse")%string then
           matrix <~ lift (inverse_model pinv fs (arg_hardware args)
                             "LORETA" inv_alpha_0 inv_beta_0) ;;
           ix_row matrix (arg_electrode args)
         else Raises (SystemExit "Wrong argument to --coloring")) ;;
      Returns (set_vertex_values shown vertex_values)
    else Returns shown.

(** ** Labels *)

Lemma position_names (key : string) (names : list string) :
  match position key (map Name names) with
  | Some k => nth_error names k = Some key
  | None => ~ In key names
  end.
Proof.
  induction names as [|s names IH]; simpl.
  - intros [].
  - destruct (String.eqb_spec s key) as [-> | Hne]; [reflexivity|].
    destruct (position key (map Name names)) as [k|]; simpl.
    + exact IH.
    + intros [E | Hin]; [congruence | contradiction].
Qed.

Lemma position_in (key : string) (names : list string) :
  In key names ->
  exists k, position key (map Name names) = Some k /\
            nth_error names k = Some key.
Proof.
  intros Hin. pose proof (position_names key names) as Hp.
  destruct (position key (map Name names)) as [k|].
  - exists k. split; [reflexivity | exact Hp].
  - contradiction.
Qed.

Lemma position_not_in (key : string) (names : list string) :
  ~ In key names -> position key (map Name names) = None.
Proof.
  intros Hno. pose proof (position_names key names) as Hp.
  destruct (position key (map Name names)) as [k|]; [|reflexivity].
  exfalso. apply Hno. eapply nth_error_In. exact Hp.
Qed.

(** ** Rows and columns *)

Lemma map_nth_seq {A : Type} (l : list A) (d : A) :
  map (fun j => nth j l d) (seq 0 (length l)) = l.
Proof.
  induction l as [|x l IH]; simpl; [reflexivity|].
  f_equal. rewrite <- seq_shift, map_map. exact IH.
Qed.

Lemma column_transpose (a : ndarray (R := R)) (r c k : nat) :
  shaped r c a -> k < r -> column k (transpose a) = nth k a [].
Proof.
  intros Ha Hk. assert (Hr : 0 < r) by lia.
  unfold column at 1, transpose. rewrite map_map.
  rewrite (shaped_ncols r c a Hr Ha).
  rewrite <- (shaped_row_length r c a k Ha Hk).
  rewrite <- (map_nth_seq (nth k a []) rzero) at 2.
  apply map_ext. intros j. unfold column.
  destruct Ha as [Hlen _].
  rewrite (nth_indep _ rzero (nth j [] rzero))
    by (rewrite length_map; lia).
  apply (map_nth (fun row => nth j row rzero) a [] k).
Qed.

Lemma nth_scale_r (a : ndarray (R := R)) (k : nat) (m : R) :
  nth k (scale_r a m) [] = map (fun x => rmul x m) (nth k a []).
Proof.
  unfold scale_r.
  apply (map_nth (map (fun x => rmul x m)) a [] k).
Qed.

Lemma surface_small (s : Surface) :
  read_obj small_obj = Some s -> surface "small" = Ok s.
Proof. intros Hs. unfold surface. cbn. now rewrite Hs. Qed.

Hypothesis pinv_shape :
  forall (r c : nat) (a : ndarray), 0 < r -> shaped r c a -> shaped c r (pinv a).

(** X13.  Forward colouring of the small surface, with the raw
    (14 x n) table on disk: when the electrode is in the catalog of the
    hardware, at place k, the surface is shown with the n values of row k
    of the raw table, each times 1,000,000; when it is not, [main] ends in
    KeyError. *)
Theorem main_forward_coloring (fs : assets) (args : Args) (s : Surface)
    (names : list string) (raw : ndarray (R := R)) (n : nat) :
  arg_model args = "small" ->
  arg_coloring args = "forward" ->
  read_obj small_obj = Some s ->
  electrode_names (arg_hardware args) = Ok names ->
  fs (arg_hardware args) forward_file = Some raw ->
  shaped 14 n raw ->
  (In (arg_electrode args) names ->
   exists k,
     nth_error names k = Some (arg_electrode args) /\
     length (nth k raw []) = n /\
     main fs args
     = Returns (set_vertex_values s
                  (map (fun x => rmul x million) (nth k raw [])))) /\
  (~ In (arg_electrode args) names ->
   main fs args = Raises (KeyError (arg_electrode args))).
Proof.
  intros Hm Hc Hs Hnames Hraw Hshape.
  destruct (electrode_names_ok_inv _ _ Hnames) as [_ Hlen].
  assert (Hmain : main fs args
                  = vertex_values <~
                      ix_column (forward_model_spec names raw)
                        (arg_electrode args) ;;
                    Returns (set_vertex_values s vertex_values)).
  { unfold main. rewrite Hm, Hc. cbn [String.eqb Ascii.eqb Bool.eqb negb andb].
    rewrite (surface_small s Hs). cbn [lift ran_bind].
    now rewrite (forward_model_ok fs _ names raw Hnames Hraw (proj1 Hshape)). }
  rewrite Hmain. unfold ix_column. simpl columns. simpl values. split.
  - intros Hin. destruct (position_in _ _ Hin) as [k [Hpos Hnth]].
    assert (Hk : k < 14).
    { rewrite <- Hlen. apply nth_error_Some. congruence. }
    exists k. split; [exact Hnth|].
    split; [apply (shaped_row_length 14 n raw k Hshape Hk)|].
    rewrite Hpos. cbn [ran_bind].
    rewrite (column_transpose (scale_r raw million) 14 n k);
      [|apply shaped_scale_r; exact Hshape | exact Hk].
    now rewrite nth_scale_r.
  - intros Hno. now rewrite (position_not_in _ _ Hno).
Qed.

(** X14.  Inverse colouring of the small surface uses LORETA with the
    default hyperparameters.  With a forward model over n > 0 vertices and
    an (n x n) coherence table: when the electrode is in the catalog, at
    place k, the surface is shown with row k of the LORETA operator, n
    values; when it is not, [main] ends in KeyError. *)
Theorem main_inverse_coloring (fs : assets) (args : Args) (s : Surface)
    (F L : Matrix) (names : list string) (n : nat) :
  arg_model args = "small" ->
  arg_coloring args = "inverse" ->
  read_obj small_obj = Some s ->
  electrode_names (arg_hardware args) = Ok names ->
  forward_model fs (arg_hardware args) = Ok F ->
  spatial_coherence fs (arg_hardware args) = Ok L ->
  0 < n ->
  shaped n 14 (values F) ->
  shaped n n (values L) ->
  (In (arg_electrode args) names ->
   exists k,
     nth_error names k = Some (arg_electrode args) /\
     length (nth k (loreta_spec pinv inv_alpha_0 inv_beta_0
                      (values F) (values L)) []) = n /\
     main fs args
     = Returns (set_vertex_values s
                  (nth k (loreta_spec pinv inv_alpha_0 inv_beta_0
                            (values F) (values L)) []))) /\
  (~ In (arg_electrode args) names ->
   main fs args = Raises (KeyError (arg_electrode args))).
Proof.
  intros Hm Hc Hs Hnames HF HL Hn HFs HLs.
  destruct (electrode_names_ok_inv _ _ Hnames) as [_ Hlen].
  assert (H14 : 0 < 14) by lia.
  destruct (LORETA_steps pinv pinv_shape (values F) (values L) n 14
              inv_alpha_0 inv_beta_0 Hn H14 HFs HLs) as [_ Hout].
  assert (Hmain : main fs args
                  = vertex_values <~
                      ix_row
                        {| index := map Name names;
                           columns := RangeIndex n;
                           values := loreta_spec pinv inv_alpha_0 inv_beta_0
                                       (values F) (values L) |}
                        (arg_electrode args) ;;
                    Returns (set_vertex_values s vertex_values)).
  { unfold main. rewrite Hm, Hc. cbn [String.eqb Ascii.eqb Bool.eqb negb andb].
    rewrite (surface_small s Hs). cbn [lift ran_bind].
    now rewrite (inverse_model_LORETA_ok pinv pinv_shape fs _
                   inv_alpha_0 inv_beta_0 F L names n
                   HF HL Hnames Hn HFs HLs). }
  rewrite Hmain. unfold ix_row. simpl index. simpl values. split.
  - intros Hin. destruct (position_in _ _ Hin) as [k [Hpos Hnth]].
    assert (Hk : k < 14).
    { rewrite <- Hlen. apply nth_error_Some. congruence. }
    exists k. split; [exact Hnth|].
    split; [apply (shaped_row_length 14 n _ k Hout Hk)|].
    now rewrite Hpos.
  - intros Hno. now rewrite (position_not_in _ _ Hno).
Qed.

End Main.

End Script.

(** * Runs of the further properties *)

(** A forward table with a row missing. *)
Definition thirteen_rows : assets (R := Q) :=
  fun _ _ => Some (unit_table 13 2).

(** A coherence table over three vertices beside a forward table over
    two. *)
Definition coherence_of_three : assets (R := Q) :=
  fun _ file =>
    if (file =? forward_file)%string then Some (unit_table 14 2)
    else Some (unit_table 3 3).

(** The two-vertex directory without the stored inverse coherence. *)
Definition sbs2_dir_no_inverse : assets (R := Q) :=
  fun hardware file =>
    if (file =? inverse_coherence_file)%string then None
    else sbs2_dir 2 hardware file.

(** X2 on the table with thirteen rows. *)
Lemma forward_model_failure_thirteen_rows :
  forward_model thirteen_rows "emotiv" = Error (ValueError "Length mismatch")
  /\ exists raw,
       thirteen_rows "emotiv" forward_file = Some raw /\ nrows raw <> 14.
Proof.
  split; [reflexivity|].
  destruct (forward_model_failure thirteen_rows "emotiv"
              (ValueError "Length mismatch") eq_refl)
    as [[Hnone _] | [[raw [_ [Hno _]]] | [raw [Hraw [_ [Hrows _]]]]]].
  - discriminate Hnone.
  - exfalso. apply Hno. left. reflexivity.
  - exists raw. split; [exact Hraw | exact Hrows].
Defined.

(** X3 with alpha = 0 on the two-vertex directory. *)
Lemma minimumnorm_alpha_zero_unit_table :
  inverse_model pinv_diag (sbs2_dir 2) "emotiv" "minimumnorm"
    0%Q inv_beta_default = Error ZeroDivisionError.
Proof.
  destruct (minimumnorm_fails_iff_alpha_zero pinv_diag pinv_diag_shape
              (sbs2_dir 2) "emotiv" 0%Q inv_beta_default forward_2
              eq_refl (Nat.lt_0_succ 1)) as [names [_ HM]].
  exact HM.
Defined.

(** X4 on the directory whose coherence table is (3 x 3). *)
Lemma LORETA_coherence_of_three :
  inverse_model pinv_diag coherence_of_three "emotiv" "LORETA"
    inv_alpha_default inv_beta_default
  = Error (ValueError "shapes not aligned").
Proof.
  destruct (LORETA_needs_square_coherence pinv_diag pinv_diag_shape
              coherence_of_three "emotiv" inv_alpha_default inv_beta_default
              forward_2 (mk_Matrix (unit_table 3 3))
              eq_refl eq_refl (Nat.lt_0_succ 1)) as [names [_ HM]].
  exact HM.
Defined.

(** X5: dropping the inverse coherence file changes nothing. *)
Lemma inverse_model_without_inverse_coherence :
  sbs2_dir 2 "emotiv" inverse_coherence_file
  <> sbs2_dir_no_inverse "emotiv" inverse_coherence_file /\
  inverse_model pinv_diag (sbs2_dir 2) "emotiv" "LORETA"
    inv_alpha_default inv_beta_default
  = inverse_model pinv_diag sbs2_dir_no_inverse "emotiv" "LORETA"
      inv_alpha_default inv_beta_default.
Proof.
  split; [discriminate|].
  exact (inverse_model_reads_two_files pinv_diag (sbs2_dir 2)
           sbs2_dir_no_inverse "emotiv" "LORETA"
           inv_alpha_default inv_beta_default eq_refl eq_refl).
Defined.

(** X6 on the two-vertex directory. *)
Lemma inverse_model_conformable_unit_table :
  shape loreta_2 = (14, 2) /\
  is_ok (dot (values loreta_2) (values forward_2)) = true.
Proof.
  assert (HM : inverse_model pinv_diag (sbs2_dir 2) "emotiv" "LORETA"
                 inv_alpha_default inv_beta_default = Ok loreta_2)
    by (vm_compute; reflexivity).
  destruct (inverse_model_conformable pinv_diag pinv_diag_shape
              (sbs2_dir 2) "emotiv" "LORETA"
              inv_alpha_default inv_beta_default forward_2 loreta_2
              eq_refl (Nat.lt_0_succ 1) HM)
    as [_ [Hshape [_ [_ [Hdot _]]]]].
  split; [exact Hshape|]. now rewrite Hdot.
Defined.

(** A surface is here the name of its file and the vertex values it has
    been given. *)
Definition named_surface : Type := string * option (list Q).

Definition read_named (file : string) : option named_surface :=
  if (file =? Script.small_obj)%string then Some (file, None)
  else if (file =? Script.large_obj)%string then Some (file, None)
  else None.

Definition give_values (s : named_surface) (vertex_values : list Q)
  : named_surface :=
  (fst s, Some vertex_values).

Definition color_by (coloring electrode : string) : Script.Args :=
  {| Script.arg_model := "small";
     Script.arg_coloring := coloring;
     Script.arg_hardware := "emotiv";
     Script.arg_electrode := electrode |}.

(** X13 for electrode FC6, the second of emotiv. *)
Lemma main_forward_coloring_FC6 :
  exists k,
    nth_error SBS2_ELECTRODES_EMOTIV k = Some "FC6" /\
    length (nth k (unit_table 14 2) []) = 2 /\
    Script.main pinv_diag named_surface read_named give_values
      inv_alpha_default inv_beta_default (sbs2_dir 2)
      (color_by "forward" "FC6")
    = Script.Returns
        (give_values (Script.small_obj, None)
           (map (fun x => rmul x million) (nth k (unit_table 14 2) []))).
Proof.
  apply (Script.main_forward_coloring pinv_diag named_surface read_named
           give_values inv_alpha_default inv_beta_default (sbs2_dir 2)
           (color_by "forward" "FC6") (Script.small_obj, None)
           SBS2_ELECTRODES_EMOTIV (unit_table 14 2) 2
           eq_refl eq_refl eq_refl eq_refl eq_refl).
  - apply is_shape_shaped. reflexivity.
  - right. left. reflexivity.
Defined.

(** X14 for electrode C3, which emotiv does not have. *)
Lemma main_inverse_coloring_C3 :
  Script.main pinv_diag named_surface read_named give_values
    inv_alpha_default inv_beta_default (sbs2_dir 2)
    (color_by "inverse" "C3")
  = Script.Raises (Script.KeyError "C3").
Proof.
  apply (Script.main_inverse_coloring pinv_diag named_surface read_named
           give_values inv_alpha_default inv_beta_default pinv_diag_shape
           (sbs2_dir 2) (color_by "inverse" "C3") (Script.small_obj, None)
           forward_2 coherence_2 SBS2_ELECTRODES_EMOTIV 2
           eq_refl eq_refl eq_refl eq_refl eq_refl eq_refl).
  - lia.
  - apply is_shape_shaped. reflexivity.
  - apply is_shape_shaped. reflexivity.
  - simpl. intros Hin.
    repeat (destruct Hin as [Hin | Hin]; [discriminate Hin|]).
    exact Hin.
Defined.

(** The checks of X12 on the command line. *)
Example main_large_forward :
  Script.main pinv_diag named_surface read_named give_values
    inv_alpha_default inv_beta_default (sbs2_dir 2)
    {| Script.arg_model := "large"; Script.arg_coloring := "forward";
       Script.arg_hardware := "emotiv"; Script.arg_electrode := "O1" |}
  = Script.Raises (Script.SystemExit
      "Different coloring than z only supported for small model").
Proof. reflexivity. Qed.

Example main_large_z :
  Script.main pinv_diag named_surface read_named give_values
    inv_alpha_default inv_beta_default (sbs2_dir 2)
    {| Script.arg_model := "large"; Script.arg_coloring := "z";
       Script.arg_hardware := "emotiv"; Script.arg_electrode := "O1" |}
  = Script.Returns (Script.large_obj, None).
Proof. reflexivity. Qed.

(** * main from its first statement *)

Module Program.

(** How a run of the script ends: in an error of the download, or in what
    the body of [main] ends in. *)
Inductive ended (A : Type) : Type :=
| Crashed (e : Disk.os_exn)
| Finished (r : Script.ran A).
Arguments Crashed {A} e.
Arguments Finished {A} r.

Section Run.
Context {R : Type} `{Scalar R}.
Variable pinv : ndarray (R := R) -> ndarray (R := R).
Variable Surface : Type.
Variable read_obj : string -> option Surface.
Variable set_vertex_values : Surface -> list R -> Surface.
Variable inv_alpha_0 inv_beta_0 : R.

(** main(args): sbs2_data = SBS2Data() first, then the checks of the
    arguments and the rest.  [configured] is the data directory of the
    configuration; [svn] and [tmp] are what a download would meet. *)
Definition run_main (configured : Disk.path) (svn : Disk.svn_result)
    (tmp : Disk.path) (fs : assets) (args : Script.Args) (w : Disk.world)
  : ended Surface * Disk.world :=
  match Disk.SBS2Data_init configured false svn tmp w with
  | (Disk.Done _, w') =>
      (Finished (Script.main pinv Surface read_obj set_vertex_values
                   inv_alpha_0 inv_beta_0 fs args),
       w')
  | (Disk.Raise e, w') => (Crashed e, w')
  end.

(** X12.  [main] constructs SBS2Data() before it looks at its arguments.
    On a disk that holds the data the constructor changes nothing and the
    run ends as the body of [main] does: for a colouring other than z with
    a model other than small, in the exit with its message.  On a disk
    without the data and without svn, the run ends in the OSError of the
    download, whatever the arguments are. *)
Theorem main_constructs_first (configured : Disk.path)
    (svn : Disk.svn_result) (tmp : Disk.path) (fs : assets)
    (args : Script.Args) (unpacked bare : Disk.world) :
  Disk.present unpacked (Disk.join configured "sbs2") = true ->
  Disk.present unpacked
    (Disk.join (Disk.join configured "sbs2") "sbs2_data") = true ->
  Disk.present bare (Disk.cwd bare) = true ->
  Disk.present bare
    (Disk.join (Disk.join configured "sbs2") "sbs2_data") = false ->
  run_main configured svn tmp fs args unpacked
  = (Finished (Script.main pinv Surface read_obj set_vertex_values
                 inv_alpha_0 inv_beta_0 fs args),
     unpacked) /\
  (Script.arg_model args <> "small" ->
   Script.arg_coloring args <> "z" ->
   run_main configured svn tmp fs args unpacked
   = (Finished (Script.Raises (Script.SystemExit
        "Different coloring than z only supported for small model")),
      unpacked)) /\
  fst (run_main configured Disk.NotInstalled tmp fs args bare)
  = Crashed (Disk.OSError "No such file or directory").
Proof.
  intros Hdir Hdata Hcwd Habsent.
  assert (Hrun : run_main configured svn tmp fs args unpacked
                 = (Finished (Script.main pinv Surface read_obj
                                set_vertex_values inv_alpha_0 inv_beta_0
                                fs args),
                    unpacked)).
  { unfold run_main, Disk.SBS2Data_init, Disk.io_bind, Disk.io_ret.
    rewrite Disk.unpack_eq. simpl Disk.sbs2_dir.
    now rewrite Hdir, Hdata. }
  split; [exact Hrun|]. split.
  - intros Hm Hc. rewrite Hrun. unfold Script.main.
    apply String.eqb_neq in Hm. apply String.eqb_neq in Hc.
    now rewrite Hm, Hc.
  - unfold run_main, Disk.SBS2Data_init, Disk.io_bind, Disk.io_ret.
    rewrite Disk.unpack_eq. simpl Disk.sbs2_dir.
    rewrite Habsent. simpl negb. rewrite orb_true_r.
    destruct (Disk.download_until_move
                {| Disk.data_dir := configured;
                   Disk.sbs2_dir := Disk.join configured "sbs2" |}
                Disk.NotInstalled tmp bare Hcwd)
      as [r [w' [E [_ [_ [_ [_ [-> _]]]]]]]].
    now rewrite E.
Qed.

End Run.

End Program.

(** X12 on the home directory, unpacked and bare, for a large model asked
    to be coloured. *)
Lemma main_constructs_first_home :
  Program.run_main pinv_diag named_surface read_named give_values
    inv_alpha_default inv_beta_default ["home"; "data"]
    Disk.NotInstalled Disk.tmp_b (sbs2_dir 2)
    {| Script.arg_model := "large"; Script.arg_coloring := "forward";
       Script.arg_hardware := "emotiv"; Script.arg_electrode := "O1" |}
    Disk.unpacked_world
  = (Program.Finished (Script.Raises (Script.SystemExit
       "Different coloring than z only supported for small model")),
     Disk.unpacked_world) /\
  fst (Program.run_main pinv_diag named_surface read_named give_values
         inv_alpha_default inv_beta_default ["home"; "data"]
         Disk.NotInstalled Disk.tmp_a (sbs2_dir 2)
         {| Script.arg_model := "large"; Script.arg_coloring := "forward";
            Script.arg_hardware := "emotiv"; Script.arg_electrode := "O1" |}
         Disk.bare_world)
  = Program.Crashed (Disk.OSError "No such file or directory").
Proof.
  split.
  - destruct (Program.main_constructs_first pinv_diag named_surface
                read_named give_values inv_alpha_default inv_beta_default
                ["home"; "data"] Disk.NotInstalled Disk.tmp_b (sbs2_dir 2)
                {| Script.arg_model := "large";
                   Script.arg_coloring := "forward";
                   Script.arg_hardware := "emotiv";
                   Script.arg_electrode := "O1" |}
                Disk.unpacked_world Disk.bare_world
                eq_refl eq_refl eq_refl eq_refl) as [_ [Hexit _]].
    apply Hexit; discriminate.
  - destruct (Program.main_constructs_first pinv_diag named_surface
                read_named give_values inv_alpha_default inv_beta_default
                ["home"; "data"] Disk.NotInstalled Disk.tmp_a (sbs2_dir 2)
                {| Script.arg_model := "large";
                   Script.arg_coloring := "forward";
                   Script.arg_hardware := "emotiv";
                   Script.arg_electrode := "O1" |}
                Disk.unpacked_world Disk.bare_world
                eq_refl eq_refl eq_refl eq_refl) as [_ [_ Hcrash]].
    exact Hcrash.
Defined.
